(** * cra-version-proxy: version switch and fetch-through cache

    A shallow embedding of [main.go]: the handler chain built by [main]
    ([AppRewrite] around [VersionSwitch] around [fileServer]), the file
    server's miss/hit protocol, and the pieces of Go's [path] and
    [net/url] packages the handlers call. *)

From Stdlib Require Import Ascii String List ZArith Lia Bool.
From stdpp Require Import base option list gmap strings.

Local Open Scope list_scope.

(** ** Go strings

    A Go string is a sequence of bytes; the path functions below work
    on the byte list and are wrapped to [string] afterwards. *)

Abbreviation bytes := (list ascii).

Definition slash : ascii := "/"%char.
Definition dot : ascii := "."%char.

Definition is_slash (c : ascii) : bool := Ascii.eqb c slash.
Definition is_dot (c : ascii) : bool := Ascii.eqb c dot.

(** [r == n || path[r] == '/'] for the suffix of the path starting at r. *)
Definition at_end_or_slash (p : bytes) : bool :=
  match p with
  | [] => true
  | c :: _ => is_slash c
  end.

(** ** Package path *)

(** The copy loop of [Clean]'s default case:
    [for ; r < n && path[r] != '/'; r++ { out.append(path[r]) }].
    The output buffer is kept newest byte first. *)
Fixpoint copy_elem (p out : bytes) : bytes * bytes :=
  match p with
  | [] => ([], out)
  | c :: p' => if is_slash c then (p, out) else copy_elem p' (c :: out)
  end.

(** The backtracking loop of the [..] case, entered after [out.w--] has
    dropped the byte [c]:
    [for out.w > dotdot && out.index(out.w) != '/' { out.w-- }]. *)
Fixpoint backtrack_loop (c : ascii) (out : bytes) (dotdot : nat) : bytes :=
  match out with
  | [] => []
  | c' :: out' =>
      if (dotdot <? length out)%nat && negb (is_slash c)
      then backtrack_loop c' out' dotdot
      else out
  end.

(** [out.w--] followed by the loop above. *)
Definition backtrack (out : bytes) (dotdot : nat) : bytes :=
  match out with
  | [] => []
  | c :: out' => backtrack_loop c out' dotdot
  end.

(** The main loop of [Clean]; [p] is [path[r:]], [out] the bytes written
    so far (newest first, so [out.w = length out]).  One unit of fuel is
    spent per iteration and every iteration consumes a byte of [p]. *)
Fixpoint clean_loop (fuel : nat) (rooted : bool) (p out : bytes) (dotdot : nat)
  : bytes :=
  match fuel with
  | O => out
  | S fuel' =>
      match p with
      | [] => out
      | c :: p1 =>
          if is_slash c then
            (* empty path element *)
            clean_loop fuel' rooted p1 out dotdot
          else if is_dot c && at_end_or_slash p1 then
            (* . element *)
            clean_loop fuel' rooted p1 out dotdot
          else if is_dot c && is_dot (hd slash p1) && at_end_or_slash (tl p1) then
            (* .. element: remove to last / *)
            let p2 := tl p1 in
            if (dotdot <? length out)%nat then
              (* can backtrack *)
              clean_loop fuel' rooted p2 (backtrack out dotdot) dotdot
            else if negb rooted then
              (* cannot backtrack, but not rooted, so append .. element *)
              let out1 := if (0 <? length out)%nat then slash :: out else out in
              let out2 := dot :: dot :: out1 in
              clean_loop fuel' rooted p2 out2 (length out2)
            else clean_loop fuel' rooted p2 out dotdot
          else
            (* real path element: add slash if needed, copy element *)
            let out1 :=
              if (rooted && negb (length out =? 1)%nat)
                 || (negb rooted && negb (length out =? 0)%nat)
              then slash :: out else out in
            let '(p', out2) := copy_elem p out1 in
            clean_loop fuel' rooted p' out2 dotdot
      end
  end.

(** [path.Clean] on bytes. *)
Definition clean_bytes (p : bytes) : bytes :=
  match p with
  | [] => [dot]
  | c :: p1 =>
      let rooted := is_slash c in
      let out :=
        if rooted then clean_loop (length p) true p1 [slash] 1
        else clean_loop (length p) false p [] 0 in
      match out with
      | [] => [dot]
      | _ => rev out
      end
  end.

Definition Clean (path : string) : string :=
  string_of_list_ascii (clean_bytes (list_ascii_of_string path)).

(** [strings.Join(elems, sep)]. *)
Fixpoint strings_Join (elems : list string) (sep : string) : string :=
  match elems with
  | [] => EmptyString
  | [e] => e
  | e :: rest => String.append e (String.append sep (strings_Join rest sep))
  end.

(** [path.Join]: the empty leading elements are skipped, the rest is
    joined with slashes and cleaned. *)
Fixpoint Join (elem : list string) : string :=
  match elem with
  | [] => EmptyString
  | e :: rest =>
      if String.eqb e EmptyString then Join rest
      else Clean (strings_Join elem "/")
  end.

(** The scan of [path.Ext], from the last byte towards the first;
    [acc] is [path[i+1:]]. *)
Fixpoint ext_scan (rp acc : bytes) : bytes :=
  match rp with
  | [] => []
  | c :: rp' =>
      if is_slash c then []
      else if is_dot c then c :: acc
      else ext_scan rp' (c :: acc)
  end.

Definition Ext (path : string) : string :=
  string_of_list_ascii (ext_scan (rev (list_ascii_of_string path)) []).

(** ** Package net/url: PathEscape *)

Definition is_alnum (c : ascii) : bool :=
  let n := nat_of_ascii c in
  ((97 <=? n) && (n <=? 122) || (65 <=? n) && (n <=? 90)
   || (48 <=? n) && (n <=? 57))%nat.

Definition mem_ascii (c : ascii) (s : string) : bool :=
  existsb (Ascii.eqb c) (list_ascii_of_string s).

(** [shouldEscape(c, encodePathSegment)]. *)
Definition shouldEscape (c : ascii) : bool :=
  if is_alnum c then false
  else if mem_ascii c "-_.~" then false
  else if mem_ascii c "$&+,/:;=?@" then mem_ascii c "/;,?"
  else true.

Definition upperhex (n : nat) : ascii :=
  nth n (list_ascii_of_string "0123456789ABCDEF") "0"%char.

Definition escape_byte (c : ascii) : bytes :=
  if shouldEscape c then
    let n := nat_of_ascii c in
    ["%"%char; upperhex (n / 16); upperhex (n mod 16)]
  else [c].

Definition PathEscape (s : string) : string :=
  string_of_list_ascii (flat_map escape_byte (list_ascii_of_string s)).

(** [filepath.Join] and [filepath.FromSlash] on a platform whose
    separator is the slash: the former is [path.Join], the latter the
    identity. *)
Definition filepath_Join (elem : list string) : string := Join elem.
Definition filepath_FromSlash (p : string) : string := p.

(** ** Package net/http: the data the handlers touch *)

(** [http.Header] and [url.Values]: a key maps to its values in order.
    The program writes its header keys in canonical form ([X-Cache],
    [Cache-Control]), so the canonicalisation of keys is left out. *)
Abbreviation http_Header := (gmap string (list string)).
Abbreviation url_Values := (gmap string (list string)).

Definition Header_Get (h : http_Header) (key : string) : string :=
  match h !! key with
  | Some (v :: _) => v
  | _ => EmptyString
  end.

Definition Header_Set (key value : string) (h : http_Header) : http_Header :=
  <[key := [value]]> h.

Definition Header_Add (key value : string) (h : http_Header) : http_Header :=
  <[key := default [] (h !! key) ++ [value]]> h.

Definition Values_Get (v : url_Values) (key : string) : string :=
  match v !! key with
  | Some (x :: _) => x
  | _ => EmptyString
  end.

(** [url.URL]; [Query] is what [URL.Query()] parses out of the raw query. *)
Record url_URL : Type := mkURL {
  Scheme : string;
  Host : string;
  Path : string;
  Query : url_Values;
}.

(** [time.Time] as nanoseconds, [time.Duration] likewise. *)
Definition time_Second : Z := 1000000000.
Definition time_Hour : Z := 3600 * time_Second.

(** [http.Cookie], the fields the program sets or reads.  [Expires] is
    [None] for the zero time (no Expires attribute), [Cookie_Path] is
    empty when there is no Path attribute. *)
Record http_Cookie : Type := mkCookie {
  Name : string;
  Value : string;
  Cookie_Path : string;
  Expires : option Z;
  HttpOnly : bool;
}.

(** [http.Request]; [Cookies] are the name/value pairs net/http reads
    from the Cookie header, in order. *)
Record http_Request : Type := mkRequest {
  Method : string;
  URL : url_URL;
  Cookies : list (string * string);
}.

Definition set_Path (p : string) (req : http_Request) : http_Request :=
  mkRequest (Method req)
            (mkURL (Scheme (URL req)) (Host (URL req)) p (Query (URL req)))
            (Cookies req).

(** [req.Cookie(name)]: the first cookie of that name; a request cookie
    carries a name and a value and nothing else. *)
Definition Request_Cookie (req : http_Request) (name : string) : option http_Cookie :=
  match List.find (fun c => String.eqb (fst c) name) (Cookies req) with
  | Some (n, v) => Some (mkCookie n v EmptyString None false)
  | None => None
  end.

Inductive error : Type :=
  | ENOENT                 (* os: no such file or directory *)
  | EACCES                 (* os: permission denied *)
  | ErrTransport           (* http.Client: the exchange with the origin failed *)
  | ErrMalformedResponse   (* http.ReadResponse: not an HTTP response *)
  | ErrUnexpectedEOF.      (* a body that ends before it is complete *)

(** [os.IsNotExist(err)], [err] possibly nil. *)
Definition os_IsNotExist (err : option error) : bool :=
  match err with
  | Some ENOENT => true
  | _ => false
  end.

(** [http.Response]: [BodyTruncated] says that reading [Body] to its end
    fails after the bytes of [Body] have been delivered. *)
Record http_Response : Type := mkResponse {
  StatusCode : nat;
  Header : http_Header;
  Body : string;
  BodyTruncated : bool;
}.

Definition body_error (res : http_Response) : option error :=
  if BodyTruncated res then Some ErrUnexpectedEOF else None.

(** [http.ResponseWriter]: the header map, the Set-Cookie lines added by
    [http.SetCookie] (kept as cookies), the status once written, the
    body written so far. *)
Record ResponseWriter : Type := mkRW {
  rw_header : http_Header;
  rw_cookies : list http_Cookie;
  rw_status : option nat;
  rw_body : string;
}.

Definition rw_Header_Set (key value : string) (rw : ResponseWriter) : ResponseWriter :=
  mkRW (Header_Set key value (rw_header rw)) (rw_cookies rw) (rw_status rw) (rw_body rw).

Definition rw_Header_Add (key value : string) (rw : ResponseWriter) : ResponseWriter :=
  mkRW (Header_Add key value (rw_header rw)) (rw_cookies rw) (rw_status rw) (rw_body rw).

(** [http.SetCookie(w, cookie)]: a Set-Cookie line is added for the
    cookie (its name is valid here, so the line is never dropped); the
    line is kept as the cookie it is made from. *)
Definition http_SetCookie (rw : ResponseWriter) (cookie : http_Cookie) : ResponseWriter :=
  mkRW (rw_header rw) (rw_cookies rw ++ [cookie]) (rw_status rw) (rw_body rw).

(** [rw.WriteHeader(code)]: only the first call sets the status. *)
Definition WriteHeader (code : nat) (rw : ResponseWriter) : ResponseWriter :=
  match rw_status rw with
  | Some _ => rw
  | None => mkRW (rw_header rw) (rw_cookies rw) (Some code) (rw_body rw)
  end.

(** [io.Copy(rw, body)]: the bytes of the body are written (with status
    200 if none was written yet); the result is the body's read error. *)
Definition io_Copy (rw : ResponseWriter) (res : http_Response) : option error * ResponseWriter :=
  let rw1 := WriteHeader 200 rw in
  (body_error res,
   mkRW (rw_header rw1) (rw_cookies rw1) (rw_status rw1) (String.append (rw_body rw1) (Body res))).

(** ** The world a request runs in *)

Inductive Event : Type :=
  | EvOpen (name : string)                  (* os.Open *)
  | EvGet (u : url_URL)                     (* http.Client.Get *)
  | EvCreate (name : string)                (* os.Create *)
  | EvWrite (name : string) (data : string) (* Response.Write to the file *)
  | EvLog (err : error).                    (* log.Printf("ERROR: ...") *)

(** The files under their full names, the names the operating system
    refuses to open and those it refuses to create (no permission, a
    directory in the way, a full disk), the origin ([None]: transport
    error), the clock, the cell the default-version poller keeps up to
    date, and the trace of what happened so far. *)
Record World : Type := mkWorld {
  files : gmap string string;
  cannot_open : string -> bool;
  cannot_create : string -> bool;
  origin : url_URL -> option http_Response;
  now : Z;
  defaultVersionCell : string;
  trace : list Event;
}.

Definition emit (e : Event) (w : World) : World :=
  mkWorld (files w) (cannot_open w) (cannot_create w) (origin w) (now w)
          (defaultVersionCell w) (trace w ++ [e]).

Definition set_file (name data : string) (w : World) : World :=
  mkWorld (<[name := data]> (files w)) (cannot_open w) (cannot_create w) (origin w) (now w)
          (defaultVersionCell w) (trace w).

Definition os_Open (name : string) (w : World) : (error + string) * World :=
  let w := emit (EvOpen name) w in
  if cannot_open w name then (inl EACCES, w)
  else match files w !! name with
       | Some data => (inr data, w)
       | None => (inl ENOENT, w)
       end.

(** [os.Create]: the file exists and is empty afterwards. *)
Definition os_Create (name : string) (w : World) : option error * World :=
  let w := emit (EvCreate name) w in
  if cannot_create w name then (Some EACCES, w)
  else (None, set_file name EmptyString w).

(** [http.Dir(d).Open(name)]. *)
Definition Dir_Open (d : string) (name : string) (w : World) : (error + string) * World :=
  let dir := if String.eqb d EmptyString then "."%string else d in
  let fullName :=
    filepath_Join [dir; filepath_FromSlash (Clean (String.append "/" name))] in
  os_Open fullName w.

Definition Handler : Type :=
  ResponseWriter -> http_Request -> World -> ResponseWriter * http_Request * World.

(** ** The program *)

Definition doError (rw : ResponseWriter) (req : http_Request) (err : error) (w : World)
  : ResponseWriter * World :=
  let w := emit (EvLog err) w in
  (WriteHeader 500 rw, w).

Record fileServer : Type := mkFileServer {
  root : string;       (* http.Dir *)
  sourceURL : url_URL;
}.

(** The loop of [tryServeFile] over the parsed headers:
    [for key, vals := range parsedResponse.Header { for _, val := range
    vals { rwHeader.Add(key, val) } }]. *)
Definition copy_headers (src dst : http_Header) : http_Header :=
  map_fold (fun key vals h => foldl (fun h val => Header_Add key val h) h vals) dst src.

(** The wire format of net/http: what [Response.Write] sends to a writer
    and what [http.ReadResponse] makes of such bytes ([None]: they are not
    a response). *)
Class WireFormat : Type := {
  Response_Write : http_Response -> string;
  ReadResponse : string -> option http_Response;
}.

Definition tryServeFile `{WireFormat} (fs : fileServer) (rw : ResponseWriter)
    (req : http_Request) (name : string) (w : World)
  : option error * ResponseWriter * World :=
  (* http.Dir.Open ensures the file is rooted at root. *)
  match Dir_Open (root fs) name w with
  | (inl err, w) => (Some err, rw, w)
  | (inr f, w) =>
      match ReadResponse f with
      | None => (Some ErrMalformedResponse, rw, w)
      | Some parsedResponse =>
          let rw :=
            mkRW (copy_headers (Header parsedResponse) (rw_header rw))
                 (rw_cookies rw) (rw_status rw) (rw_body rw) in
          let rw := WriteHeader (StatusCode parsedResponse) rw in
          let '(err, rw) := io_Copy rw parsedResponse in
          (err, rw, w)
      end
  end.

Definition doCacheFetch `{WireFormat} (fs : fileServer) (rw : ResponseWriter)
    (req : http_Request) (name : string) (w : World) : option error * World :=
  let urlOut :=
    mkURL (Scheme (sourceURL fs)) (Host (sourceURL fs))
          (Join [Path (sourceURL fs); name]) ∅ in
  let w := emit (EvGet urlOut) w in
  match origin w urlOut with
  | None => (Some ErrTransport, w)
  | Some res =>
      (* Taken from http.Dir.Open; the separator is the slash. *)
      let fullName :=
        filepath_Join [root fs; filepath_FromSlash (Clean (String.append "/" name))] in
      (* os.MkdirAll(filepath.Dir(fullName), 0770): its result is dropped,
         and the flat file store has no directories to make. *)
      match os_Create fullName w with
      | (Some err, w) => (Some err, w)
      | (None, w) =>
          let w := emit (EvWrite fullName (Response_Write res)) w in
          (body_error res, set_file fullName (Response_Write res) w)
      end
  end.

Definition ServeHTTP `{WireFormat} (fs : fileServer) : Handler := fun rw req w =>
  let rw := rw_Header_Set "X-Cache" "hit" rw in
  let name := Clean (Path (URL req)) in
  let '(err, rw, w) := tryServeFile fs rw req name w in
  if os_IsNotExist err then
    let rw := rw_Header_Set "X-Cache" "miss" rw in
    match doCacheFetch fs rw req name w with
    | (Some err, w) =>
        let '(rw, w) := doError rw req err w in (rw, req, w)
    | (None, w) =>
        match tryServeFile fs rw req name w with
        | (Some err, rw, w) =>
            let '(rw, w) := doError rw req err w in (rw, req, w)
        | (None, rw, w) => (rw, req, w)
        end
    end
  else
    match err with
    | Some err => let '(rw, w) := doError rw req err w in (rw, req, w)
    | None => (rw, req, w)
    end.

Definition VERSION_COOKIE_NAME : string := "version-override".

(** The first part of the handler [VersionSwitch] returns: the version
    before it is escaped, and the response writer with the cookie and
    the Cache-Control header the chosen branch sets. *)
Definition resolveVersion (defaultVersion : World -> string)
    (rw : ResponseWriter) (req : http_Request) (w : World) : string * ResponseWriter :=
  let queryVersion := Values_Get (Query (URL req)) "version" in
  if negb (String.eqb queryVersion EmptyString) then
    (* read the requested version from the QS *)
    let version := queryVersion in
    let versionCookie :=
      {| Name := VERSION_COOKIE_NAME;
         HttpOnly := false;
         Cookie_Path := "/";
         Expires := Some (now w + time_Hour)%Z;
         Value := version |} in
    let rw := http_SetCookie rw versionCookie in
    let rw := rw_Header_Set "Cache-Control" "no-store" rw in
    (version, rw)
  else
    match Request_Cookie req VERSION_COOKIE_NAME with
    | Some versionCookie =>
        (* read the requested version from the cookie *)
        let version := Value versionCookie in
        (* refresh the cookie *)
        let versionCookie :=
          mkCookie (Name versionCookie) (Value versionCookie)
                   (Cookie_Path versionCookie) (Some (now w + time_Hour)%Z)
                   (HttpOnly versionCookie) in
        let rw := http_SetCookie rw versionCookie in
        let rw := rw_Header_Set "Cache-Control" "no-store" rw in
        (version, rw)
    | None => (defaultVersion w, rw)
    end.

(** The second part: escape, prefix, clean, hand over. *)
Definition VersionSwitch (defaultVersion : World -> string) (next : Handler) : Handler :=
  fun rw req w =>
    let '(version, rw) := resolveVersion defaultVersion rw req w in
    let version := PathEscape version in
    let newPath := Clean (String.append "/" (Join [version; Path (URL req)])) in
    let req := set_Path newPath req in
    next rw req w.

(** AppRewrite rewrites all requests without an extension to /index.html *)
Definition AppRewrite (next : Handler) : Handler := fun rw req w =>
  let req :=
    if String.eqb (Ext (Path (URL req))) EmptyString
    then set_Path "/index.html" req else req in
  next rw req w.

(** The environment variables [main] reads, the source already parsed. *)
Record Env : Type := mkEnv {
  SOURCE : url_URL;
  CACHE_DIR : string;
  DEFAULT_VERSION : string;
}.

(** The default-version accessor [main] builds: the configured version
    when there is one, the cell the poller updates otherwise. *)
Definition defaultVersionFunc (env : Env) : World -> string :=
  if negb (String.eqb (DEFAULT_VERSION env) EmptyString)
  then fun _ => DEFAULT_VERSION env
  else fun w => defaultVersionCell w.

(** The handler [main] serves: the file server, wrapped by
    [VersionSwitch], wrapped by [AppRewrite].  ([Logger] only observes
    and the development proxy is a separate pass-through.) *)
Definition main_handler `{WireFormat} (env : Env) : Handler :=
  let handler := ServeHTTP (mkFileServer (CACHE_DIR env) (SOURCE env)) in
  let handler := VersionSwitch (defaultVersionFunc env) handler in
  let handler := AppRewrite handler in
  handler.

(** ** A small wire format

    Three status digits, a line feed, the body; headers are not kept.
    It is enough to run the handlers on examples. *)

Definition digit (n : nat) : ascii := ascii_of_nat (48 + n mod 10).

Definition undigit (c : ascii) : option nat :=
  let n := nat_of_ascii c in
  if ((48 <=? n) && (n <=? 57))%nat then Some (n - 48) else None.

Definition line_Write (res : http_Response) : string :=
  String (digit (StatusCode res / 100))
    (String (digit (StatusCode res / 10))
       (String (digit (StatusCode res))
          (String "010"%char (Body res)))).

Definition line_Read (s : string) : option http_Response :=
  match s with
  | String a (String b (String c (String nl body))) =>
      match undigit a, undigit b, undigit c with
      | Some x, Some y, Some z =>
          if Ascii.eqb nl "010"%char
          then Some (mkResponse (100 * x + 10 * y + z) ∅ body false)
          else None
      | _, _, _ => None
      end
  | _ => None
  end.

Definition line_wire : WireFormat :=
  {| Response_Write := line_Write; ReadResponse := line_Read |}.

(** ** The names a cache key stands for *)

(** The key [VersionSwitch] computes from the version and the path. *)
Definition cache_key (version path : string) : string :=
  Clean (String.append "/" (Join [PathEscape version; path])).

(** Where [http.Dir.Open] looks for the key, where [doCacheFetch] stores
    it, and what it asks the origin for. *)
Definition open_name (fs : fileServer) (key : string) : string :=
  filepath_Join [if String.eqb (root fs) EmptyString then "."%string else root fs; key].

Definition store_name (fs : fileServer) (key : string) : string :=
  filepath_Join [root fs; key].

Definition origin_url (fs : fileServer) (key : string) : url_URL :=
  mkURL (Scheme (sourceURL fs)) (Host (sourceURL fs))
        (Join [Path (sourceURL fs); key]) ∅.

Definition uses_key (fs : fileServer) (key : string) (e : Event) : Prop :=
  match e with
  | EvOpen n => n = open_name fs key
  | EvGet u => u = origin_url fs key
  | EvCreate n => n = store_name fs key
  | EvWrite n _ => n = store_name fs key
  | EvLog _ => True
  end.

Definition is_get (e : Event) : bool :=
  match e with EvGet _ => true | _ => false end.

Definition is_open (e : Event) : bool :=
  match e with EvOpen _ => true | _ => false end.

Definition is_create (e : Event) : bool :=
  match e with EvCreate _ => true | _ => false end.

Definition is_write (e : Event) : bool :=
  match e with EvWrite _ _ => true | _ => false end.

Definition count_events (f : Event -> bool) (evs : list Event) : nat :=
  length (List.filter f evs).

(** The path the application shell routing hands on. *)
Definition app_path (path : string) : string :=
  if String.eqb (Ext path) EmptyString then "/index.html"%string else path.

(** The chain in the other order, the version prefix first and the
    extension test on the prefixed path: not what [main] builds. *)
Definition prefix_first_handler `{WireFormat} (env : Env) : Handler :=
  VersionSwitch (defaultVersionFunc env)
    (AppRewrite (ServeHTTP (mkFileServer (CACHE_DIR env) (SOURCE env)))).

(** ** Example requests *)

Definition example_env : Env :=
  mkEnv (mkURL "http" "origin.example" "/bucket" ∅) "/data/cache" "v1".

Definition example_origin (u : url_URL) : option http_Response :=
  if String.eqb (Path u) "/bucket/v1/index.html"
  then Some (mkResponse 200 ∅ "<html>v1</html>" false)
  else if String.eqb (Path u) "/bucket/v2/down.js" then None
  else Some (mkResponse 404 ∅ "not found" false).

Definition example_world : World :=
  mkWorld ∅ (fun _ => false) (fun _ => false) example_origin 1000 "v9" [].

Definition fresh_rw : ResponseWriter := mkRW ∅ [] None EmptyString.

Definition GET (path : string) (query : url_Values) (cookies : list (string * string))
  : http_Request :=
  mkRequest "GET" (mkURL EmptyString EmptyString path query) cookies.

(** The path the request carries when the chain is done with it. *)
Definition served_path (r : ResponseWriter * http_Request * World) : string :=
  Path (URL (snd (fst r))).

(** ** The elements of a path

    [Clean] works on bytes; what it computes is best said on the
    elements between the slashes.  The definitions below give that
    reading, and the first part of the properties proves that [Clean]
    follows it: a path is split into elements, every element acts on a
    stack of names (with a count of leading [..] for unrooted paths),
    and the stack is written out again. *)

(** The elements between the slashes of [p]. *)
Fixpoint split_slash (p : bytes) : list bytes :=
  match p with
  | [] => [[]]
  | c :: p' =>
      if is_slash c then [] :: split_slash p'
      else match split_slash p' with
           | e :: es => (c :: e) :: es
           | [] => [[c]]
           end
  end.

Definition is_dot_elem (e : bytes) : bool :=
  match e with [c] => is_dot c | _ => false end.

Definition is_dotdot_elem (e : bytes) : bool :=
  match e with [c; d] => is_dot c && is_dot d | _ => false end.

Definition slash_free (e : bytes) : bool :=
  forallb (fun c => negb (is_slash c)) e.

(** A name: not empty, no slash, neither [.] nor [..]. *)
Definition normal_elem (e : bytes) : bool :=
  match e with
  | [] => false
  | _ => slash_free e && negb (is_dot_elem e) && negb (is_dotdot_elem e)
  end.

(** The test of [Clean]'s default case for a separating slash. *)
Definition need_slash (rooted : bool) (out : bytes) : bool :=
  (rooted && negb (length out =? 1)%nat) || (negb rooted && negb (length out =? 0)%nat).

(** What the loop of [Clean] does to its buffer and to [dotdot] while it
    reads one whole element. *)
Definition elem_step (rooted : bool) (e : bytes) (s : bytes * nat) : bytes * nat :=
  let '(out, dotdot) := s in
  match e with
  | [] => s
  | _ =>
    if is_dot_elem e then s
    else if is_dotdot_elem e then
      if (dotdot <? length out)%nat then (backtrack out dotdot, dotdot)
      else if negb rooted then
        let out2 := dot :: dot :: (if (0 <? length out)%nat then slash :: out else out) in
        (out2, length out2)
      else s
    else (rev e ++ (if need_slash rooted out then slash :: out else out), dotdot)
  end.

(** ... and while it reads several. *)
Definition run_elems (rooted : bool) (es : list bytes) (s : bytes * nat) : bytes * nat :=
  fold_left (fun s e => elem_step rooted e s) es s.

(** The first element of [p] and what follows it. *)
Fixpoint span_elem (p : bytes) : bytes * bytes :=
  match p with
  | [] => ([], [])
  | c :: p' => if is_slash c then ([], p) else let '(e, r) := span_elem p' in (c :: e, r)
  end.

(** The buffer holding [k] leading [..] elements, newest byte first. *)
Fixpoint dotdots (k : nat) : bytes :=
  match k with
  | O => []
  | S k' =>
      let b := dotdots k' in
      dot :: dot :: (if (0 <? length b)%nat then slash :: b else b)
  end.

(** The buffer below which [..] cannot backtrack. *)
Definition base (rooted : bool) (k : nat) : bytes :=
  if rooted then [slash] else dotdots k.

(** The buffer for [k] leading [..] and the names [st], last name first. *)
Fixpoint render (rooted : bool) (k : nat) (st : list bytes) : bytes :=
  match st with
  | [] => base rooted k
  | s :: st' =>
      let out := render rooted k st' in
      rev s ++ (if need_slash rooted out then slash :: out else out)
  end.

(** One element acting on the count and the stack of names. *)
Definition astep (rooted : bool) (e : bytes) (a : nat * list bytes) : nat * list bytes :=
  let '(k, st) := a in
  match e with
  | [] => a
  | _ =>
      if is_dot_elem e then a
      else if is_dotdot_elem e then
        match st with
        | _ :: st' => (k, st')
        | [] => if rooted then a else (S k, [])
        end
      else (k, e :: st)
  end.

(** ... and several. *)
Definition arun (rooted : bool) (es : list bytes) (a : nat * list bytes) :=
  fold_left (fun a e => astep rooted e a) es a.

(** The loop state that stands for a count and a stack. *)
Definition conc (rooted : bool) (a : nat * list bytes) : bytes * nat :=
  (render rooted (fst a) (snd a), length (base rooted (fst a))).

(** What backtracking needs of a name on the stack. *)
Definition seg_ok (s : bytes) : Prop := s <> [] /\ slash_free s = true.

(** The element [..]. *)
Definition dotdot_elem : bytes := [dot; dot].

(** [strings.Join(es, "/")] on bytes. *)
Fixpoint join_slash (es : list bytes) : bytes :=
  match es with
  | [] => []
  | [e] => e
  | e :: es' => e ++ slash :: join_slash es'
  end.

(** The elements of a cleaned path, first to last. *)
Definition elems_of (rooted : bool) (a : nat * list bytes) : list bytes :=
  (if rooted then [] else repeat dotdot_elem (fst a)) ++ rev (snd a).

(** The cleaned path, first byte first. *)
Definition fwd (rooted : bool) (a : nat * list bytes) : bytes :=
  (if rooted then [slash] else []) ++ join_slash (elems_of rooted a).

(** The stack holds names only. *)
Definition stack_ok (a : nat * list bytes) : Prop :=
  Forall (fun s => normal_elem s = true) (snd a).

(** [Clean] in terms of elements: whether the path is rooted, and the
    machine state after all elements of the path. *)
Definition clean_state (p : bytes) : bool * (nat * list bytes) :=
  match p with
  | [] => (false, (0, []))
  | c :: p1 =>
      let rooted := is_slash c in
      (rooted, arun rooted (split_slash (if rooted then p1 else p)) (0, []))
  end.

(** [Clean] turns the empty result into [.]. *)
Definition dot_if_empty (b : bytes) : bytes :=
  match b with [] => [dot] | _ => b end.

(** ** The file server, step by step *)

(** What a lookup finds under a full name: an error, or the response
    parsed from the file. *)
Definition lookup `{WireFormat} (w : World) (n : string) : error + http_Response :=
  if cannot_open w n then inl EACCES
  else match files w !! n with
       | None => inl ENOENT
       | Some f =>
           match ReadResponse f with
           | None => inl ErrMalformedResponse
           | Some parsed => inr parsed
           end
       end.

(** The response writer after [tryServeFile] has served [parsed]. *)
Definition serve (parsed : http_Response) (rw : ResponseWriter) : ResponseWriter :=
  snd (io_Copy
         (WriteHeader (StatusCode parsed)
            (mkRW (copy_headers (Header parsed) (rw_header rw))
                  (rw_cookies rw) (rw_status rw) (rw_body rw)))
         parsed).

(** A version that is a name once escaped: not empty, not [.], not [..]. *)
Definition plain_name (ev : string) : Prop :=
  ev <> EmptyString /\ ev <> "."%string /\ ev <> ".."%string.


(** ** Package net/http: the client

    [origin] of a world is what [http.Client.Get] hands to
    [doCacheFetch].  The client of [main] has no redirect policy of its
    own, so it follows redirects the way the package does by default;
    the definitions below give what it returns from what the servers
    answer. *)







(** ** Package net/http: the value of a Set-Cookie line *)

Definition dquote : ascii := ascii_of_nat 34.

Definition backslash : ascii := ascii_of_nat 92.

Definition validCookieValueByte (b : ascii) : bool :=
  let n := nat_of_ascii b in
  ((32 <=? n) && (n <? 127))%nat
  && negb (Ascii.eqb b dquote) && negb (Ascii.eqb b ";") && negb (Ascii.eqb b backslash).

(** [sanitizeOrWarn]: the string itself when every byte is valid, the
    valid bytes otherwise (the warning is left out). *)
Definition sanitizeOrWarn (valid : ascii -> bool) (v : bytes) : bytes :=
  if forallb valid v then v else List.filter valid v.

(** [sanitizeCookieValue]: invalid bytes are dropped, and what is left
    is put in double quotes when it has a space or a comma. *)
Definition sanitizeCookieValue (v : string) : string :=
  let v := sanitizeOrWarn validCookieValueByte (list_ascii_of_string v) in
  string_of_list_ascii
    (match v with
     | [] => v
     | _ =>
         if existsb (Ascii.eqb " ") v || existsb (Ascii.eqb ",") v
         then dquote :: v ++ [dquote]
         else v
     end).

(** A value that is sent as it is: valid bytes only, no space and no
    comma. *)
Definition plain_cookie_value (v : string) : bool :=
  forallb (fun b => validCookieValueByte b && negb (Ascii.eqb " " b) && negb (Ascii.eqb "," b))
          (list_ascii_of_string v).

(** The value [Cookie.String] writes into the Set-Cookie line. *)
Definition sent_value (c : http_Cookie) : string := sanitizeCookieValue (Value c).

(** ** Log lines *)


(** ** More of the program: the default-version poller *)

(** [strings.TrimSpace], as the poller uses it on the body it reads. *)
Class GoStrings : Type := {
  TrimSpace : string -> string;
}.

Definition set_defaultVersionCell (v : string) (w : World) : World :=
  mkWorld (files w) (cannot_open w) (cannot_create w) (origin w) (now w) v (trace w).

(** [fetchVersion], the closure of [defaultVersionPoller]: a GET of the
    URL, an error ([None]) for a transport error, for a status other
    than 200 and for a body that cannot be read to its end, the trimmed
    body otherwise.  (The log lines of the poller are left out of the
    trace.) *)
Definition fetchVersion `{GoStrings} (url : url_URL) (w : World) : option string * World :=
  let w := emit (EvGet url) w in
  match origin w url with
  | None => (None, w)
  | Some res =>
      if negb (StatusCode res =? 200)%nat then (None, w)
      else match body_error res with
           | Some _ => (None, w)
           | None => (Some (TrimSpace (Body res)), w)
           end
  end.

(** [defaultVersionPoller] up to the start of its goroutine: the first
    fetch fills the cell, or the poller fails and [main] stops. *)
Definition defaultVersionPoller `{GoStrings} (url : url_URL) (w : World) : option World :=
  match fetchVersion url w with
  | (None, _) => None
  | (Some defaultVersion, w) => Some (set_defaultVersionCell defaultVersion w)
  end.

(** One turn of the goroutine's loop: a failed fetch leaves the cell, a
    fetched version replaces it. *)
Definition poll `{GoStrings} (url : url_URL) (w : World) : World :=
  match fetchVersion url w with
  | (None, w) => w
  | (Some newVersion, w) => set_defaultVersionCell newVersion w
  end.

(** [strings.TrimSpace] on strings of ASCII bytes, for the examples. *)
Definition is_ascii_space (c : ascii) : bool :=
  let n := nat_of_ascii c in
  ((9 <=? n) && (n <=? 13) || (n =? 32))%nat.

Fixpoint trim_left (s : bytes) : bytes :=
  match s with
  | c :: s' => if is_ascii_space c then trim_left s' else s
  | [] => []
  end.

Definition ascii_strings : GoStrings :=
  {| TrimSpace := fun s =>
       string_of_list_ascii
         (rev (trim_left (rev (trim_left (list_ascii_of_string s))))) |}.

(** The world with another trace. *)
Definition retrace (t : list Event) (w : World) : World :=
  mkWorld (files w) (cannot_open w) (cannot_create w) (origin w) (now w)
          (defaultVersionCell w) t.

(** ** What a name under the cache root looks like *)

(** The key appended to the root, the key [/] standing for the root
    itself. *)
Definition under_root (root key : string) : string :=
  String.append root (if String.eqb key "/" then EmptyString else key).

(** The file names and the URL one run of the file server may touch for
    the request path cleaned to [name]. *)
Definition touches (fs : fileServer) (name : string) (e : Event) : Prop :=
  let key := Clean (String.append "/" name) in
  match e with
  | EvOpen n => n = open_name fs key
  | EvGet u => u = origin_url fs name
  | EvCreate n => n = store_name fs key
  | EvWrite n _ => n = store_name fs key
  | EvLog _ => True
  end.

(** The event names a file, and the file is [n]. *)
Definition on_file (n : string) (e : Event) : Prop :=
  match e with
  | EvOpen m | EvCreate m | EvWrite m _ => m = n
  | EvGet _ | EvLog _ => True
  end.

(** The values of a header key, none when the key is absent. *)
Definition Header_Values (h : http_Header) (key : string) : list string :=
  default [] (h !! key).

(** With no cache directory configured: files are looked up under a
    name relative to the working directory and stored under the key
    itself, an absolute name. *)
Definition off_root (key : string) (e : Event) : Prop :=
  match e with
  | EvOpen n => String.append "/" n = key
  | EvCreate n | EvWrite n _ => n = key
  | EvGet _ | EvLog _ => True
  end.

(** Whether the last element of a path has a dot in it. *)
Definition has_dot (f : string) : bool := existsb is_dot (list_ascii_of_string f).

(** The value of a hexadecimal digit as [PathEscape] writes it. *)
Definition unhex (c : ascii) : nat :=
  let n := nat_of_ascii c in
  if (n <=? 57)%nat then n - 48 else n - 55.

(** * Properties *)

(** ** [Clean], element by element *)

Lemma span_elem_spec p e r :
  span_elem p = (e, r) -> p = e ++ r /\ slash_free e = true /\ at_end_or_slash r = true.
Proof.
  revert e r. induction p as [|c p IH]; intros e r; simpl.
  - intros [= <- <-]. auto.
  - destruct (is_slash c) eqn:Hc.
    + intros [= <- <-]. simpl. rewrite Hc. auto.
    + destruct (span_elem p) as [e' r'] eqn:Hs. intros [= <- <-].
      destruct (IH _ _ eq_refl) as (-> & Hf & Hr). simpl. rewrite Hc. auto.
Qed.

Lemma span_elem_length p e r : span_elem p = (e, r) -> length r <= length p.
Proof.
  intros H. apply span_elem_spec in H as (-> & _ & _). rewrite length_app. lia.
Qed.

(** The elements of a path: its first element, then those of the rest. *)
Lemma split_slash_span p :
  split_slash p =
    let '(e, r) := span_elem p in
    match r with [] => [e] | _ :: r' => e :: split_slash r' end.
Proof.
  induction p as [|c p IH]; simpl; [done|].
  destruct (is_slash c) eqn:Hc; [done|].
  rewrite IH. destruct (span_elem p) as [e r]. by destruct r.
Qed.

(** The copy loop moves the first element to the buffer. *)
Lemma copy_elem_span p out :
  copy_elem p out = let '(e, r) := span_elem p in (r, rev e ++ out).
Proof.
  revert out. induction p as [|c p IH]; intros out; simpl; [done|].
  destruct (is_slash c); [done|]. rewrite IH.
  destruct (span_elem p) as [e r]. simpl. by rewrite <- app_assoc.
Qed.

Lemma span_elem_cons c p1 e r :
  is_slash c = false -> span_elem (c :: p1) = (e, r) ->
  exists e', e = c :: e' /\ span_elem p1 = (e', r).
Proof.
  simpl. intros ->. destruct (span_elem p1) as [e' r']. intros [= <- <-]. eauto.
Qed.

(** One pass of the loop over an element that starts the path: the
    three tests of the switch fall as the element is [.], [..] or a
    name, and the buffer changes as [elem_step] says. *)
Lemma loop_first_elem rooted c p1 e r out dd f :
  is_slash c = false -> span_elem (c :: p1) = (e, r) ->
  clean_loop (S f) rooted (c :: p1) out dd =
    let '(out', dd') := elem_step rooted e (out, dd) in clean_loop f rooted r out' dd'.
Proof.
  intros Hc Hs.
  pose proof (copy_elem_span (c :: p1) (if need_slash rooted out then slash :: out else out)) as Hcopy.
  rewrite Hs in Hcopy.
  destruct (span_elem_cons _ _ _ _ Hc Hs) as (e' & -> & Hs').
  apply span_elem_spec in Hs' as (-> & Hf & Hr).
  cbn [clean_loop]. rewrite Hc.
  destruct e' as [|x e'].
  - (* one byte *)
    cbn [app] in *. rewrite Hr, andb_true_r.
    cbn [elem_step is_dot_elem is_dotdot_elem].
    destruct (is_dot c) eqn:Hd; [done|].
    cbn [andb]. fold (need_slash rooted out). by rewrite Hcopy.
  - cbn [slash_free forallb] in Hf. apply andb_prop in Hf as [Hx Hf].
    apply negb_true_iff in Hx.
    cbn [app at_end_or_slash hd tl] in *. rewrite Hx, andb_false_r.
    destruct e' as [|y e'].
    + cbn [app] in *. rewrite Hr, andb_true_r.
      cbn [elem_step is_dot_elem is_dotdot_elem].
      destruct (is_dot c && is_dot x) eqn:Hd.
      * destruct (dd <? length out)%nat; [done|]. by destruct (negb rooted).
      * fold (need_slash rooted out). by rewrite Hcopy.
    + cbn [forallb] in Hf. apply andb_prop in Hf as [Hy Hf].
      apply negb_true_iff in Hy.
      cbn [app at_end_or_slash] in *. rewrite Hy, andb_false_r.
      cbn [elem_step is_dot_elem is_dotdot_elem].
      fold (need_slash rooted out). by rewrite Hcopy.
Qed.

Lemma clean_loop_nil f rooted out dd : clean_loop f rooted [] out dd = out.
Proof. by destruct f. Qed.

(** The loop is [elem_step] over the elements of the path. *)
Lemma clean_loop_split rooted n :
  forall p out dd f, length p <= n -> length p <= f ->
    clean_loop f rooted p out dd = fst (run_elems rooted (split_slash p) (out, dd)).
Proof.
  induction n as [|n IH]; intros p out dd f Hn Hf.
  - destruct p; [|simpl in Hn; lia]. by rewrite clean_loop_nil.
  - destruct p as [|c p1]; [by rewrite clean_loop_nil|].
    destruct f as [|f]; [simpl in Hf; lia|]. simpl in Hn, Hf.
    destruct (is_slash c) eqn:Hc.
    + cbn [clean_loop split_slash]. rewrite Hc. cbn. apply IH; lia.
    + destruct (span_elem (c :: p1)) as [e r] eqn:Hs.
      rewrite (loop_first_elem _ _ _ _ _ _ _ _ Hc Hs).
      rewrite split_slash_span, Hs.
      destruct (span_elem_cons _ _ _ _ Hc Hs) as (e' & -> & Hs').
      pose proof (span_elem_length _ _ _ Hs') as Hlen.
      pose proof (span_elem_spec _ _ _ Hs') as (_ & _ & Hr).
      destruct (elem_step rooted (c :: e') (out, dd)) as [out' dd'] eqn:Hstep.
      destruct r as [|x r'].
      * rewrite clean_loop_nil. unfold run_elems. cbn [fold_left]. by rewrite Hstep.
      * simpl in Hr, Hlen. destruct f as [|f]; [lia|].
        cbn [clean_loop]. rewrite Hr.
        unfold run_elems. cbn [fold_left]. rewrite Hstep. apply IH; lia.
Qed.

(** The fuel [Clean] gives its loop, the length of the path, is enough:
    the loop ends by reaching the end of the path, and more fuel changes
    nothing. *)
Lemma clean_loop_fuel rooted p out dd f f' :
  length p <= f -> length p <= f' ->
  clean_loop f rooted p out dd = clean_loop f' rooted p out dd.
Proof.
  intros Hf Hf'. by rewrite !(clean_loop_split rooted (length p)) by lia.
Qed.

(** *** The element-level machine *)

Lemma is_slash_slash : is_slash slash = true.
Proof. reflexivity. Qed.

Lemma slash_free_app s t : slash_free (s ++ t) = slash_free s && slash_free t.
Proof. apply forallb_app. Qed.

Lemma slash_free_rev s : slash_free (rev s) = slash_free s.
Proof.
  induction s as [|c s IH]; [done|]. cbn [rev]. rewrite slash_free_app, IH.
  simpl. rewrite andb_true_r. apply andb_comm.
Qed.

Lemma length_render_ge rooted k st : length (base rooted k) <= length (render rooted k st).
Proof.
  induction st as [|s st IH]; cbn [render]; [lia|].
  rewrite length_app. destruct (need_slash _ _); simpl; lia.
Qed.

(** Backtracking over a name that was appended, slash included when
    one was written, gives the buffer back. *)
Lemma backtrack_loop_pushed rooted out dd t c :
  is_slash c = false -> slash_free t = true -> dd <= length out ->
  (need_slash rooted out = false -> length out <= dd) ->
  backtrack_loop c (t ++ (if need_slash rooted out then slash :: out else out)) dd = out.
Proof.
  intros Hc Ht Hge Hle. revert c Hc. induction t as [|x t IH]; intros c Hc.
  - cbn [app]. destruct (need_slash rooted out) eqn:Hn.
    + cbn [backtrack_loop]. rewrite Hc.
      replace (dd <? length (slash :: out))%nat with true
        by (symmetry; apply Nat.ltb_lt; simpl; lia).
      destruct out as [|y o]; [done|]. cbn [backtrack_loop andb negb].
      by rewrite is_slash_slash, andb_false_r.
    + destruct out as [|y o]; [done|]. cbn [backtrack_loop].
      replace (dd <? length (y :: o))%nat with false; [done|].
      symmetry. apply Nat.ltb_ge. by apply Hle.
  - cbn [slash_free forallb] in Ht. apply andb_prop in Ht as [Hx Ht].
    apply negb_true_iff in Hx.
    cbn [app backtrack_loop]. rewrite Hc.
    replace (dd <? _)%nat with true; [by apply IH|].
    symmetry. apply Nat.ltb_lt. cbn [length]. rewrite length_app.
    destruct (need_slash rooted out); simpl; lia.
Qed.

Lemma backtrack_pushed rooted out dd s :
  seg_ok s -> dd <= length out ->
  (need_slash rooted out = false -> length out <= dd) ->
  let out' := rev s ++ (if need_slash rooted out then slash :: out else out) in
  (dd <? length out')%nat = true /\ backtrack out' dd = out.
Proof.
  intros [Hne Hf] Hge Hle. cbn zeta.
  rewrite <- slash_free_rev in Hf.
  assert (rev s <> []) as Hne' by (intros H; apply Hne; by rewrite <- (rev_involutive s), H).
  destruct (rev s) as [|c t]; [done|].
  cbn [slash_free forallb] in Hf. apply andb_prop in Hf as [Hc Ht].
  apply negb_true_iff in Hc. split.
  - apply Nat.ltb_lt. cbn [app length]. rewrite length_app.
    destruct (need_slash rooted out); simpl; lia.
  - cbn [app backtrack]. by apply backtrack_loop_pushed.
Qed.

Lemma need_slash_false_length rooted k st :
  need_slash rooted (render rooted k st) = false ->
  length (render rooted k st) <= length (base rooted k).
Proof.
  unfold need_slash. pose proof (length_render_ge rooted k st) as Hge.
  destruct rooted; simpl in *.
  - rewrite orb_false_r. intros H%negb_false_iff%Nat.eqb_eq. lia.
  - intros H%negb_false_iff%Nat.eqb_eq. lia.
Qed.

(** On buffers that stand for a count and a stack, [elem_step] is
    [astep]. *)
Lemma elem_step_astep rooted e a :
  slash_free e = true -> Forall seg_ok (snd a) ->
  elem_step rooted e (conc rooted a) = conc rooted (astep rooted e a).
Proof.
  destruct a as [k st]. intros He Hst. unfold conc. cbn [fst snd elem_step astep].
  destruct e as [|c e]; [done|].
  destruct (is_dot_elem (c :: e)); [done|].
  destruct (is_dotdot_elem (c :: e)); [|done].
  destruct st as [|s st].
  - cbn [render]. rewrite Nat.ltb_irrefl.
    destruct rooted; [done|]. cbn [negb base dotdots]. done.
  - cbn [render]. apply Forall_cons in Hst as [Hs Hst].
    destruct (backtrack_pushed rooted (render rooted k st) (length (base rooted k)) s)
      as [-> ->]; auto using length_render_ge, need_slash_false_length.
Qed.

Lemma normal_seg_ok s : normal_elem s = true -> seg_ok s.
Proof.
  unfold normal_elem, seg_ok. destruct s; [done|].
  intros H. apply andb_prop in H as [H _]. apply andb_prop in H as [H _]. done.
Qed.

Lemma join_slash_snoc es s :
  join_slash (es ++ [s]) =
    match es with [] => s | _ => join_slash es ++ slash :: s end.
Proof.
  induction es as [|e es IH]; [done|].
  destruct es as [|e' es]; [done|].
  change (join_slash ((e :: e' :: es) ++ [s])) with (e ++ slash :: join_slash ((e' :: es) ++ [s])).
  rewrite IH. change (join_slash (e :: e' :: es)) with (e ++ slash :: join_slash (e' :: es)).
  by rewrite <- app_assoc.
Qed.

Lemma join_slash_nil_inv es :
  Forall (fun e => e <> []) es -> join_slash es = [] -> es = [].
Proof.
  destruct es as [|e es]; [done|]. intros [He _]%Forall_cons.
  destruct es; cbn [join_slash]; [done|]. by destruct e.
Qed.

Lemma dotdots_fwd k : rev (dotdots k) = join_slash (repeat dotdot_elem k).
Proof.
  induction k as [|k IH]; [done|].
  cbn [dotdots]. replace (S k) with (k + 1) by lia.
  rewrite repeat_app. cbn [repeat]. rewrite join_slash_snoc, <- IH.
  destruct k as [|k]; [done|].
  cbn [repeat]. replace (0 <? length (dotdots (S k)))%nat with true by done.
  cbn [rev]. by rewrite <- !app_assoc.
Qed.

Lemma elems_of_nonempty rooted k st :
  Forall seg_ok st -> Forall (fun e => e <> []) (elems_of rooted (k, st)).
Proof.
  intros Hst. unfold elems_of. apply Forall_app. split.
  - destruct rooted; [constructor|]. apply Forall_forall. intros x Hx.
    apply list_elem_of_In, repeat_spec in Hx. by subst.
  - apply Forall_rev. eapply Forall_impl; [exact Hst|]. by intros ? [? _].
Qed.

Lemma elems_of_cons rooted k s st :
  elems_of rooted (k, s :: st) = elems_of rooted (k, st) ++ [s].
Proof. unfold elems_of. cbn [fst snd rev]. by rewrite app_assoc. Qed.

(** The buffer, read first byte first, is the elements joined by
    slashes. *)
Lemma render_fwd rooted k st :
  Forall seg_ok st -> rev (render rooted k st) = fwd rooted (k, st).
Proof.
  induction st as [|s st IH]; intros Hst.
  - unfold fwd, elems_of. cbn [render fst snd rev]. rewrite app_nil_r.
    destruct rooted; [done|]. apply dotdots_fwd.
  - apply Forall_cons in Hst as [Hs Hst]. specialize (IH Hst).
    cbn [render]. unfold fwd in *. rewrite elems_of_cons, join_slash_snoc.
    pose proof (elems_of_nonempty rooted k st Hst) as Hne.
    pose proof (join_slash_nil_inv _ Hne) as Hinv.
    assert (length (render rooted k st) = length (rev (render rooted k st))) as Hlen
      by (by rewrite length_rev).
    rewrite IH, length_app in Hlen.
    rewrite rev_app_distr, rev_involutive. unfold need_slash. rewrite Hlen.
    destruct (elems_of rooted (k, st)) as [|e es] eqn:He.
    + destruct rooted; cbn; rewrite IH; cbn; by rewrite ?app_nil_r.
    + assert (length (join_slash (e :: es)) <> 0) as Hnz.
      { intros H0. apply length_zero_iff_nil in H0. by apply Hinv in H0. }
      match goal with |- rev (if ?b then _ else _) ++ _ = _ =>
        replace b with true end.
      2:{ symmetry. destruct rooted; cbn [andb orb negb length app].
          - rewrite orb_false_r. apply negb_true_iff, Nat.eqb_neq. lia.
          - apply negb_true_iff, Nat.eqb_neq. lia. }
      cbn [rev]. rewrite IH. by rewrite <- !app_assoc.
Qed.

Lemma stack_ok_seg a : stack_ok a -> Forall seg_ok (snd a).
Proof. intros H. eapply Forall_impl; [exact H|]. intros s. apply normal_seg_ok. Qed.

Lemma astep_stack_ok rooted e a :
  slash_free e = true -> stack_ok a -> stack_ok (astep rooted e a).
Proof.
  destruct a as [k st]. unfold stack_ok, astep. cbn [snd]. intros He Hst.
  destruct e as [|c e]; [done|].
  destruct (is_dot_elem (c :: e)) eqn:H1; [done|].
  destruct (is_dotdot_elem (c :: e)) eqn:H2.
  - destruct st as [|s st]; [by destruct rooted|]. by apply Forall_cons in Hst as [_ ?].
  - cbn [snd]. constructor; [|done]. unfold normal_elem. by rewrite He, H1, H2.
Qed.

Lemma split_slash_free p : Forall (fun e => slash_free e = true) (split_slash p).
Proof.
  induction p as [|c p IH]; cbn [split_slash]; [by repeat constructor|].
  destruct (is_slash c) eqn:Hc; [by constructor|].
  destruct (split_slash p) as [|e es]; [by repeat constructor; cbn; rewrite Hc|].
  apply Forall_cons in IH as [He Hes]. constructor; [|done].
  cbn. by rewrite Hc.
Qed.

Lemma arun_stack_ok rooted es a :
  Forall (fun e => slash_free e = true) es -> stack_ok a -> stack_ok (arun rooted es a).
Proof.
  intros Hes. revert a. unfold arun.
  induction Hes as [|e es He Hes IH]; intros a Ha; [done|].
  cbn [fold_left]. apply IH. by apply astep_stack_ok.
Qed.

Lemma run_elems_arun rooted es a :
  Forall (fun e => slash_free e = true) es -> stack_ok a ->
  run_elems rooted es (conc rooted a) = conc rooted (arun rooted es a).
Proof.
  intros Hes. revert a. unfold run_elems, arun.
  induction Hes as [|e es He Hes IH]; intros a Ha; [done|].
  cbn [fold_left]. rewrite elem_step_astep by auto using stack_ok_seg.
  apply IH. by apply astep_stack_ok.
Qed.

Lemma clean_state_ok p : stack_ok (snd (clean_state p)).
Proof.
  destruct p as [|c p1]; [constructor|]. cbn [clean_state snd].
  apply arun_stack_ok; [apply split_slash_free|constructor].
Qed.

(** [Clean] by elements: run the elements of the path over the empty
    stack and write the stack out. *)
Theorem clean_bytes_fwd p :
  clean_bytes p = let '(rooted, a) := clean_state p in dot_if_empty (fwd rooted a).
Proof.
  destruct p as [|c p1]; [done|].
  pose proof (clean_state_ok (c :: p1)) as Hok.
  cbn [clean_bytes clean_state] in *. cbn [snd] in Hok.
  set (rooted := is_slash c) in *.
  set (p' := if rooted then p1 else c :: p1) in *.
  set (a := arun rooted (split_slash p') (0, [])) in *.
  assert ((if rooted then clean_loop (length (c :: p1)) true p1 [slash] 1
           else clean_loop (length (c :: p1)) false (c :: p1) [] 0)
          = render rooted (fst a) (snd a)) as ->.
  { transitivity (clean_loop (length (c :: p1)) rooted p'
                    (render rooted 0 []) (length (base rooted 0))).
    { subst p'. by destruct rooted. }
    rewrite (clean_loop_split rooted (length (c :: p1))).
    - change (render rooted 0 [], length (base rooted 0)) with (conc rooted (0, [])).
      rewrite run_elems_arun; [done|apply split_slash_free|constructor].
    - subst p'. destruct rooted; simpl; lia.
    - subst p'. destruct rooted; simpl; lia. }
  clearbody a. destruct a as [k st]. cbn [fst snd].
  rewrite <- (render_fwd rooted k st) by (by apply stack_ok_seg in Hok).
  destruct (render rooted k st) eqn:Hr; [done|].
  cbn [rev]. by destruct (rev l).
Qed.

(** *** Elements of joined paths *)

Lemma split_slash_elem e : slash_free e = true -> split_slash e = [e].
Proof.
  induction e as [|c e IH]; [done|]. cbn [slash_free forallb split_slash].
  intros [Hc He]%andb_prop. apply negb_true_iff in Hc. rewrite Hc, IH; done.
Qed.

Lemma split_slash_app e r :
  slash_free e = true -> split_slash (e ++ slash :: r) = e :: split_slash r.
Proof.
  induction e as [|c e IH]; [done|]. cbn [slash_free forallb split_slash app].
  intros [Hc He]%andb_prop. apply negb_true_iff in Hc. rewrite Hc, IH; done.
Qed.

(** Splitting what was joined gives the elements back. *)
Lemma split_join_slash es :
  es <> [] -> Forall (fun e => slash_free e = true) es -> split_slash (join_slash es) = es.
Proof.
  induction es as [|e es IH]; [done|]. intros _ [He Hes]%Forall_cons.
  destruct es as [|e' es]; [by apply split_slash_elem|].
  change (join_slash (e :: e' :: es)) with (e ++ slash :: join_slash (e' :: es)).
  rewrite split_slash_app by done. by rewrite IH.
Qed.

Lemma arun_app rooted es1 es2 a :
  arun rooted (es1 ++ es2) a = arun rooted es2 (arun rooted es1 a).
Proof. apply fold_left_app. Qed.

Lemma arun_cons rooted e es a :
  arun rooted (e :: es) a = arun rooted es (astep rooted e a).
Proof. done. Qed.

Lemma astep_normal rooted e k st :
  normal_elem e = true -> astep rooted e (k, st) = (k, e :: st).
Proof.
  unfold normal_elem, astep. destruct e as [|c e]; [done|].
  intros [[_ H1]%andb_prop H2]%andb_prop.
  apply negb_true_iff in H1, H2. by rewrite H1, H2.
Qed.

(** Names are pushed. *)
Lemma arun_normal rooted es k st :
  Forall (fun e => normal_elem e = true) es ->
  arun rooted es (k, st) = (k, rev es ++ st).
Proof.
  intros Hes. revert st. induction Hes as [|e es He Hes IH]; intros st; [done|].
  rewrite arun_cons, astep_normal, IH by done. cbn [rev]. by rewrite <- app_assoc.
Qed.

(** Leading [..] are counted on an unrooted path and dropped at the
    root. *)
Lemma arun_dotdots rooted n k :
  arun rooted (repeat dotdot_elem n) (k, []) = (if rooted then k else k + n, []).
Proof.
  revert k. induction n as [|n IH]; intros k.
  - cbn. destruct rooted; [done|]. by rewrite Nat.add_0_r.
  - cbn [repeat]. rewrite arun_cons.
    destruct rooted; cbn [astep dotdot_elem is_dot_elem is_dotdot_elem];
      replace (is_dot dot) with true by done; cbn [andb]; rewrite IH; [done|].
    f_equal. lia.
Qed.

(** The names left on the stack do not depend on the path being rooted. *)
Lemma arun_stack_sim es :
  forall k st k', snd (arun false es (k, st)) = snd (arun true es (k', st)).
Proof.
  induction es as [|e es IH]; intros k st k'; [done|].
  rewrite !arun_cons. unfold astep.
  destruct e as [|c e]; [apply IH|].
  destruct (is_dot_elem (c :: e)); [apply IH|].
  destruct (is_dotdot_elem (c :: e)); [|apply IH].
  destruct st; apply IH.
Qed.

Lemma normal_slash_free es :
  Forall (fun e => normal_elem e = true) es -> Forall (fun e => slash_free e = true) es.
Proof.
  intros H. eapply Forall_impl; [exact H|]. intros e He.
  apply normal_seg_ok in He. apply He.
Qed.

Lemma fwd_true_k k k' st : fwd true (k, st) = fwd true (k', st).
Proof. done. Qed.

Lemma stack_ok_rev a : stack_ok a -> Forall (fun e => normal_elem e = true) (rev (snd a)).
Proof. apply Forall_rev. Qed.

Lemma dotdot_elem_slash_free n :
  Forall (fun e => slash_free e = true) (repeat dotdot_elem n).
Proof. apply Forall_forall. intros x Hx%list_elem_of_In%repeat_spec. by subst. Qed.

(** The state reached from a cleaned rooted path. *)
Lemma clean_state_fwd_true a :
  stack_ok a -> clean_state (fwd true a) = (true, (0, snd a)).
Proof.
  intros Hok. destruct a as [k st]. unfold fwd, elems_of. cbn [fst snd app clean_state].
  rewrite is_slash_slash. f_equal.
  destruct (rev st) as [|e es] eqn:Hrev.
  - apply (f_equal (@rev _)) in Hrev. rewrite rev_involutive in Hrev. by subst.
  - pose proof (stack_ok_rev _ Hok) as Hn. cbn [snd] in Hn. rewrite Hrev in Hn.
    rewrite split_join_slash by auto using normal_slash_free.
    rewrite arun_normal by done. rewrite <- Hrev, rev_involutive. by rewrite app_nil_r.
Qed.

Lemma join_slash_head es :
  es <> [] -> Forall seg_ok es ->
  exists c q, join_slash es = c :: q /\ is_slash c = false.
Proof.
  destruct es as [|e es]; [done|]. intros _ [[Hne Hf] _]%Forall_cons.
  destruct e as [|c e]; [done|]. cbn [slash_free forallb] in Hf.
  apply andb_prop in Hf as [Hc%negb_true_iff _].
  destruct es; cbn [join_slash app]; eauto.
Qed.

Lemma elems_of_false_ok a :
  stack_ok a ->
  Forall seg_ok (elems_of false a) /\
  Forall (fun e => slash_free e = true) (elems_of false a).
Proof.
  intros Hok. unfold elems_of. split; apply Forall_app; split.
  - apply Forall_forall. intros x Hx%list_elem_of_In%repeat_spec. by subst.
  - apply Forall_rev, stack_ok_seg, Hok.
  - apply dotdot_elem_slash_free.
  - apply normal_slash_free, stack_ok_rev, Hok.
Qed.

(** The state reached from a cleaned unrooted path. *)
Lemma clean_state_fwd_false a :
  stack_ok a -> fwd false a <> [] -> clean_state (fwd false a) = (false, a).
Proof.
  intros Hok Hne. destruct (elems_of_false_ok a Hok) as [Hseg Hsf].
  unfold fwd in *. cbn [app] in *.
  assert (elems_of false a <> []) as Hes by (intros H; by rewrite H in Hne).
  destruct (join_slash_head _ Hes Hseg) as (c & q & Hq & Hc).
  pose proof (split_join_slash _ Hes Hsf) as Hsplit.
  rewrite Hq in *. cbn [clean_state]. rewrite Hc, Hsplit.
  f_equal. unfold elems_of. destruct a as [k st]. cbn [fst snd].
  rewrite arun_app, arun_dotdots, arun_normal by (apply (stack_ok_rev _ Hok)).
  by rewrite rev_involutive, app_nil_r.
Qed.

Lemma dot_if_empty_fwd_true a : dot_if_empty (fwd true a) = fwd true a.
Proof. done. Qed.

(** [Clean] is idempotent. *)
Theorem clean_bytes_idem p : clean_bytes (clean_bytes p) = clean_bytes p.
Proof.
  rewrite (clean_bytes_fwd p). pose proof (clean_state_ok p) as Hok.
  destruct (clean_state p) as [rooted a]. cbn [snd] in Hok.
  rewrite clean_bytes_fwd. destruct rooted.
  - rewrite dot_if_empty_fwd_true, clean_state_fwd_true by done.
    destruct a as [k st]. done.
  - destruct (fwd false a) eqn:Hf; [done|]. cbn [dot_if_empty].
    rewrite <- Hf, clean_state_fwd_false; [by rewrite Hf|done|by rewrite Hf].
Qed.

(** A doubled leading slash is the same as one. *)
Lemma clean_bytes_slash_slash p :
  clean_bytes (slash :: slash :: p) = clean_bytes (slash :: p).
Proof. by rewrite !clean_bytes_fwd. Qed.

Lemma arun_split_join rooted es k :
  Forall (fun e => normal_elem e = true) es ->
  arun rooted (split_slash (join_slash es)) (k, []) = (k, rev es).
Proof.
  intros Hn. destruct es as [|e es]; [done|].
  rewrite split_join_slash by auto using normal_slash_free.
  rewrite arun_normal by done. by rewrite app_nil_r.
Qed.

Lemma arun_split_fwd_true a :
  stack_ok a -> arun true (split_slash (fwd true a)) (0, []) = (0, snd a).
Proof.
  intros Hok. destruct a as [k st]. unfold fwd, elems_of. cbn [fst snd app split_slash].
  rewrite is_slash_slash, arun_cons. cbn [astep].
  rewrite arun_split_join by (apply (stack_ok_rev _ Hok)). by rewrite rev_involutive.
Qed.

Lemma arun_true_split_fwd_false a :
  stack_ok a ->
  arun true (split_slash (dot_if_empty (fwd false a))) (0, []) = (0, snd a).
Proof.
  intros Hok. destruct (elems_of_false_ok a Hok) as [Hseg Hsf].
  destruct a as [k st]. unfold fwd. cbn [app snd].
  destruct (elems_of false (k, st)) as [|e es] eqn:Hes.
  - unfold elems_of in Hes. apply app_eq_nil in Hes as [_ Hes]. cbn [snd] in Hes.
    apply (f_equal (@rev _)) in Hes. rewrite rev_involutive in Hes. by subst.
  - assert (exists c q, join_slash (e :: es) = c :: q) as (c & q & Hq).
    { destruct (join_slash_head (e :: es)) as (c & q & Hq & _); eauto. }
    rewrite Hq. cbn [dot_if_empty]. rewrite <- Hq, <- Hes.
    rewrite split_join_slash by (by rewrite ?Hes).
    unfold elems_of. cbn [fst snd].
    rewrite arun_app, arun_dotdots, arun_normal by (apply (stack_ok_rev _ Hok)).
    by rewrite rev_involutive, app_nil_r.
Qed.

(** Rooting a cleaned path is rooting the path. *)
Theorem clean_bytes_root_clean p :
  clean_bytes (slash :: clean_bytes p) = clean_bytes (slash :: p).
Proof.
  destruct p as [|c p1]; [done|].
  rewrite (clean_bytes_fwd (c :: p1)). pose proof (clean_state_ok (c :: p1)) as Hok.
  rewrite !(clean_bytes_fwd (slash :: _)).
  cbn [clean_state] in *. rewrite is_slash_slash. cbn [snd] in Hok.
  rewrite !dot_if_empty_fwd_true.
  destruct (is_slash c) eqn:Hc.
  - rewrite dot_if_empty_fwd_true, arun_split_fwd_true by done.
    cbn [split_slash]. rewrite Hc, arun_cons. cbn [astep].
    destruct (arun true (split_slash p1) (0, [])). apply fwd_true_k.
  - rewrite arun_true_split_fwd_false by done.
    rewrite (arun_stack_sim (split_slash (c :: p1)) 0 [] 0).
    destruct (arun true (split_slash (c :: p1)) (0, [])). apply fwd_true_k.
Qed.

Lemma clean_rooted_inv p1 :
  clean_bytes (slash :: p1) = slash :: p1 ->
  exists es, Forall (fun e => normal_elem e = true) es /\ p1 = join_slash es.
Proof.
  rewrite clean_bytes_fwd. pose proof (clean_state_ok (slash :: p1)) as Hok.
  cbn [clean_state] in *. rewrite is_slash_slash in *. cbn [snd] in Hok.
  rewrite dot_if_empty_fwd_true. unfold fwd. cbn [app]. intros [= H].
  exists (rev (snd (arun true (split_slash p1) (0, [])))). split; [|done].
  by apply stack_ok_rev.
Qed.

(** A normal element in front of a clean rooted path: nothing to clean. *)
Theorem clean_bytes_prefix ev p1 :
  normal_elem ev = true -> p1 <> [] ->
  clean_bytes (slash :: p1) = slash :: p1 ->
  clean_bytes (slash :: ev ++ slash :: slash :: p1) = slash :: ev ++ slash :: p1.
Proof.
  intros Hev Hne (es & Hes & ->)%clean_rooted_inv.
  destruct es as [|e es]; [done|].
  rewrite clean_bytes_fwd. cbn [clean_state]. rewrite is_slash_slash, dot_if_empty_fwd_true.
  pose proof (normal_seg_ok _ Hev) as [_ Hsf].
  rewrite split_slash_app by done. cbn [split_slash]. rewrite is_slash_slash.
  rewrite !arun_cons, astep_normal by done. cbn [astep].
  rewrite split_join_slash by auto using normal_slash_free.
  rewrite arun_normal by done.
  unfold fwd, elems_of. cbn [fst snd app].
  rewrite rev_app_distr, rev_involutive. done.
Qed.

(** *** From bytes to strings *)

Lemma list_ascii_of_string_app s t :
  list_ascii_of_string (String.append s t) = list_ascii_of_string s ++ list_ascii_of_string t.
Proof. induction s as [|c s IH]; [done|]. simpl. by f_equal. Qed.

Lemma Clean_bytes s : list_ascii_of_string (Clean s) = clean_bytes (list_ascii_of_string s).
Proof. unfold Clean. apply list_ascii_of_string_of_list_ascii. Qed.

Lemma string_bytes_inj s t : list_ascii_of_string s = list_ascii_of_string t -> s = t.
Proof.
  intros H. rewrite <- (string_of_list_ascii_of_string s), <- (string_of_list_ascii_of_string t).
  by rewrite H.
Qed.

Theorem Clean_idem s : Clean (Clean s) = Clean s.
Proof. apply string_bytes_inj. rewrite !Clean_bytes. apply clean_bytes_idem. Qed.

Theorem Clean_root_Clean s : Clean (String slash (Clean s)) = Clean (String slash s).
Proof.
  apply string_bytes_inj. rewrite !Clean_bytes. cbn [list_ascii_of_string].
  rewrite Clean_bytes. apply clean_bytes_root_clean.
Qed.

Theorem Clean_slash_slash s : Clean (String slash (String slash s)) = Clean (String slash s).
Proof.
  apply string_bytes_inj. rewrite !Clean_bytes. apply clean_bytes_slash_slash.
Qed.

(** The cache key is a fixed point of both cleanings the file server applies. *)
Theorem Clean_key_fixed s :
  let key := Clean (String slash s) in
  Clean key = key /\ Clean (String slash key) = key.
Proof.
  cbn zeta. split; [apply Clean_idem|].
  rewrite Clean_root_Clean. apply Clean_slash_slash.
Qed.

(** ** Joining a version and a path *)

Lemma Join_pair_nonempty v p :
  v <> EmptyString -> Join [v; p] = Clean (String.append v (String slash p)).
Proof.
  intros Hv. cbn [Join]. destruct (String.eqb_spec v EmptyString); [done|]. done.
Qed.

Lemma Join_pair_empty p :
  Join [EmptyString; p] = if String.eqb p EmptyString then EmptyString else Clean p.
Proof. done. Qed.

Lemma PathEscape_empty : PathEscape EmptyString = EmptyString.
Proof. done. Qed.

(** An empty version leaves the cleaned rooted path. *)
Lemma cache_key_empty p : cache_key EmptyString p = Clean (String slash p).
Proof.
  unfold cache_key. rewrite PathEscape_empty, Join_pair_empty.
  destruct (String.eqb_spec p EmptyString) as [->|_]; [done|].
  apply Clean_root_Clean.
Qed.

Lemma cache_key_nonempty v p :
  PathEscape v <> EmptyString ->
  cache_key v p = Clean (String slash (String.append (PathEscape v) (String slash p))).
Proof.
  intros Hv. unfold cache_key. rewrite Join_pair_nonempty by done.
  apply Clean_root_Clean.
Qed.

Lemma cache_key_fixed v p :
  Clean (cache_key v p) = cache_key v p /\
  Clean (String.append "/" (cache_key v p)) = cache_key v p.
Proof. unfold cache_key. apply Clean_key_fixed. Qed.

(** ** Reading the world after an event or a write *)

Lemma origin_emit e w : origin (emit e w) = origin w.
Proof. done. Qed.
Lemma cannot_open_emit e w : cannot_open (emit e w) = cannot_open w.
Proof. done. Qed.
Lemma cannot_create_emit e w : cannot_create (emit e w) = cannot_create w.
Proof. done. Qed.
Lemma files_emit e w : files (emit e w) = files w.
Proof. done. Qed.
Lemma trace_emit e w : trace (emit e w) = trace w ++ [e].
Proof. done. Qed.
Lemma origin_set_file n d w : origin (set_file n d w) = origin w.
Proof. done. Qed.
Lemma cannot_open_set_file n d w : cannot_open (set_file n d w) = cannot_open w.
Proof. done. Qed.
Lemma cannot_create_set_file n d w : cannot_create (set_file n d w) = cannot_create w.
Proof. done. Qed.
Lemma files_set_file n d w : files (set_file n d w) = <[n := d]> (files w).
Proof. done. Qed.
Lemma trace_set_file n d w : trace (set_file n d w) = trace w.
Proof. done. Qed.
Create Rewrite HintDb world.

#[local] Hint Rewrite origin_emit cannot_open_emit cannot_create_emit files_emit
  trace_emit origin_set_file cannot_open_set_file cannot_create_set_file
  files_set_file trace_set_file : world.

#[local] Ltac trace_done :=
  cbn [doError fst snd]; autorewrite with world; rewrite <- ?app_assoc;
  eexists; split; [reflexivity | by repeat constructor].

(** ** The file server, step by step *)

Lemma tryServeFile_eq `{WireFormat} fs rw req name w :
  tryServeFile fs rw req name w =
    let n := open_name fs (Clean (String.append "/" name)) in
    match lookup w n with
    | inl e => (Some e, rw, emit (EvOpen n) w)
    | inr parsed => (body_error parsed, serve parsed rw, emit (EvOpen n) w)
    end.
Proof.
  unfold tryServeFile, Dir_Open, os_Open, lookup, open_name, serve, filepath_FromSlash.
  cbn [cannot_open files emit].
  destruct (cannot_open w _); [done|]. destruct (files w !! _); [|done].
  destruct (ReadResponse _); done.
Qed.

Lemma doCacheFetch_eq `{WireFormat} fs rw req name w :
  doCacheFetch fs rw req name w =
    let u := origin_url fs name in
    let n := store_name fs (Clean (String.append "/" name)) in
    let w1 := emit (EvGet u) w in
    match origin w u with
    | None => (Some ErrTransport, w1)
    | Some res =>
        let w2 := emit (EvCreate n) w1 in
        if cannot_create w n then (Some EACCES, w2)
        else (body_error res,
              set_file n (Response_Write res)
                (emit (EvWrite n (Response_Write res)) (set_file n EmptyString w2)))
    end.
Proof.
  unfold doCacheFetch, os_Create, origin_url, store_name, filepath_FromSlash.
  cbn [origin cannot_create emit]. destruct (origin w _); [|done].
  destruct (cannot_create w _); done.
Qed.

(** The events of one run of the file server, for a name that is
    already a cleaned rooted path. *)
Lemma ServeHTTP_events `{WireFormat} fs rw req w key :
  Clean (Path (URL req)) = key -> Clean (String.append "/" key) = key ->
  exists evs, trace (snd (ServeHTTP fs rw req w)) = trace w ++ evs /\
              Forall (uses_key fs key) evs.
Proof.
  intros Hname Hkey. unfold ServeHTTP. rewrite Hname, tryServeFile_eq, Hkey. cbn zeta.
  destruct (lookup w _) as [e|parsed].
  - destruct e; cbn [os_IsNotExist]; try trace_done.
    rewrite doCacheFetch_eq, Hkey. cbn zeta. autorewrite with world.
    destruct (origin w _) as [res|]; [|trace_done].
    destruct (cannot_create w _); [trace_done|].
    unfold body_error. destruct (BodyTruncated res); [trace_done|].
    rewrite tryServeFile_eq, Hkey. cbn zeta.
    unfold body_error.
    destruct (lookup _ _) as [e|parsed]; [|destruct (BodyTruncated parsed)]; trace_done.
  - unfold body_error. destruct (BodyTruncated parsed); cbn [os_IsNotExist]; trace_done.
Qed.

(** ** Version resolution *)

Lemma find_cookie_first (name : string) pre v post :
  (forall c, In c pre -> fst c <> name) ->
  List.find (fun c : string * string => String.eqb (fst c) name) (pre ++ (name, v) :: post)
  = Some (name, v).
Proof.
  induction pre as [|c pre IH]; intros Hpre; cbn [app List.find fst].
  - by rewrite String.eqb_refl.
  - destruct (String.eqb_spec (fst c) name) as [Heq|_].
    + exfalso. apply (Hpre c); [by left|done].
    + apply IH. intros c' Hc'. apply Hpre. by right.
Qed.

Lemma find_cookie_none (name : string) cs :
  (forall c, In c cs -> fst c <> name) ->
  List.find (fun c : string * string => String.eqb (fst c) name) cs = None.
Proof.
  induction cs as [|c cs IH]; intros Hcs; [done|]. cbn [List.find].
  destruct (String.eqb_spec (fst c) name) as [Heq|_].
  - exfalso. apply (Hcs c); [by left|done].
  - apply IH. intros c' Hc'. apply Hcs. by right.
Qed.

Lemma Request_Cookie_first req name pre v post :
  Cookies req = pre ++ (name, v) :: post ->
  (forall c, In c pre -> fst c <> name) ->
  Request_Cookie req name = Some (mkCookie name v EmptyString None false).
Proof.
  intros Hcs Hpre. unfold Request_Cookie. rewrite Hcs. by rewrite find_cookie_first.
Qed.

Lemma Request_Cookie_none req name :
  (forall c, In c (Cookies req) -> fst c <> name) -> Request_Cookie req name = None.
Proof. intros Hcs. unfold Request_Cookie. by rewrite find_cookie_none. Qed.

(** C1: the resolved version is the [version] query parameter when it is
    present and not empty; otherwise the value of the (first) cookie
    named [version-override] when there is one; otherwise what the
    default-version accessor returns at that moment. *)
Theorem version_resolution_priority dv rw req w :
  let q := Values_Get (Query (URL req)) "version" in
  let version := fst (resolveVersion dv rw req w) in
  (q <> EmptyString -> version = q) /\
  (q = EmptyString ->
   forall pre v post,
     Cookies req = pre ++ (VERSION_COOKIE_NAME, v) :: post ->
     (forall c, In c pre -> fst c <> VERSION_COOKIE_NAME) ->
     version = v) /\
  (q = EmptyString ->
   (forall c, In c (Cookies req) -> fst c <> VERSION_COOKIE_NAME) ->
   version = dv w).
Proof.
  cbn zeta. unfold resolveVersion.
  destruct (String.eqb_spec (Values_Get (Query (URL req)) "version") EmptyString)
    as [Hq|Hq]; cbn [negb]; repeat split; try done.
  - intros _ pre v post Hcs Hpre.
    by rewrite (Request_Cookie_first _ _ _ _ _ Hcs Hpre).
  - intros _ Hcs. by rewrite (Request_Cookie_none _ _ Hcs).
Qed.

Lemma version_resolution_priority_witness :
  fst (resolveVersion (fun _ => "v1"%string) fresh_rw
         (GET "/" {["version"%string := ["v2"%string]]} [("version-override", "v3")]%string)
         example_world) = "v2"%string /\
  fst (resolveVersion (fun _ => "v1"%string) fresh_rw
         (GET "/" ∅ [("lang", "en"); ("version-override", "v3"); ("version-override", "v4")]%string)
         example_world) = "v3"%string /\
  fst (resolveVersion defaultVersionCell fresh_rw
         (GET "/" ∅ [("lang", "en")]%string) example_world) = "v9"%string.
Proof.
  split; [|split].
  - destruct (version_resolution_priority (fun _ => "v1"%string) fresh_rw
                (GET "/" {["version"%string := ["v2"%string]]}
                     [("version-override", "v3")]%string)
                example_world) as (Hq & _ & _).
    apply Hq. done.
  - destruct (version_resolution_priority (fun _ => "v1"%string) fresh_rw
                (GET "/" ∅ [("lang", "en"); ("version-override", "v3");
                            ("version-override", "v4")]%string)
                example_world) as (_ & Hc & _).
    apply (Hc eq_refl [("lang", "en")]%string "v3"%string
              [("version-override", "v4")]%string eq_refl).
    intros c [<-|[]]. done.
  - destruct (version_resolution_priority defaultVersionCell fresh_rw
                (GET "/" ∅ [("lang", "en")]%string) example_world) as (_ & _ & Hd).
    apply (Hd eq_refl). intros c [<-|[]]. done.
Defined.

(** ** The cache key *)

Lemma ServeHTTP_req `{WireFormat} fs rw req w : snd (fst (ServeHTTP fs rw req w)) = req.
Proof.
  unfold ServeHTTP. cbn zeta.
  destruct (tryServeFile _ _ _ _ _) as [[err rw1] w1].
  destruct (os_IsNotExist err).
  - destruct (doCacheFetch _ _ _ _ _) as [[err'|] w2]; [done|].
    destruct (tryServeFile _ _ _ _ _) as [[[err''|] rw3] w3]; done.
  - destruct err; done.
Qed.

(** C2: the path [VersionSwitch] computes from the resolved version [v]
    and the path [p] of the request it receives is
    [Clean("/" + Join(PathEscape(v), p))], and the file server it hands
    the request to works with that very string.  Every run opens the
    file [Join(root, key)] first; when it is not there the run asks the
    origin for [Join(source path, key)] next; and when the origin
    answers and the file can be created, the run creates and writes
    [Join(root, key)], which then holds the answer.  No event of the run
    names another file or URL. *)
Theorem cache_key_used_for_fetch_and_store `{WireFormat} dv fs rw req w :
  let v := fst (resolveVersion dv rw req w) in
  let key := Clean (String.append "/" (Join [PathEscape v; Path (URL req)])) in
  let r := VersionSwitch dv (ServeHTTP fs) rw req w in
  served_path r = key /\
  (exists evs,
     trace (snd r) = trace w ++ EvOpen (open_name fs key) :: evs /\
     Forall (uses_key fs key) evs) /\
  (cannot_open w (open_name fs key) = false -> files w !! open_name fs key = None ->
   exists evs,
     trace (snd r) =
       trace w ++ EvOpen (open_name fs key) :: EvGet (origin_url fs key) :: evs /\
     forall res,
       origin w (origin_url fs key) = Some res ->
       cannot_create w (store_name fs key) = false ->
       files (snd r) !! store_name fs key = Some (Response_Write res) /\
       exists evs',
         evs = EvCreate (store_name fs key)
                 :: EvWrite (store_name fs key) (Response_Write res) :: evs').
Proof.
  cbn zeta. unfold VersionSwitch, served_path.
  destruct (resolveVersion dv rw req w) as [v rw'] eqn:Hres. cbn [fst].
  fold (cache_key v (Path (URL req))).
  destruct (cache_key_fixed v (Path (URL req))) as [Hclean Hroot].
  set (key := cache_key v (Path (URL req))) in *.
  split; [by rewrite ServeHTTP_req|].
  unfold ServeHTTP. cbn [URL Path set_Path]. rewrite Hclean.
  rewrite tryServeFile_eq, Hroot. cbn zeta. split.
  - destruct (lookup w _) as [e|parsed].
    + destruct e; cbn [os_IsNotExist]; try trace_done.
      rewrite doCacheFetch_eq, Hroot. cbn zeta. autorewrite with world.
      destruct (origin w _) as [res|]; [|trace_done].
      destruct (cannot_create w _); [trace_done|].
      unfold body_error. destruct (BodyTruncated res); [trace_done|].
      rewrite tryServeFile_eq, Hroot. cbn zeta. unfold body_error.
      destruct (lookup (set_file _ _ _) _) as [e|parsed];
        [|destruct (BodyTruncated parsed)]; trace_done.
    + unfold body_error. destruct (BodyTruncated parsed); cbn [os_IsNotExist]; trace_done.
  - intros Hopen Hfile.
    assert (lookup w (open_name fs key) = inl ENOENT) as ->
      by (unfold lookup; by rewrite Hopen, Hfile).
    cbn [os_IsNotExist].
    rewrite doCacheFetch_eq, Hroot. cbn zeta. autorewrite with world.
    destruct (origin w (origin_url fs key)) as [res|].
    + destruct (cannot_create w (store_name fs key)) eqn:Hcre.
      * cbn [doError fst snd]. autorewrite with world. rewrite <- ?app_assoc.
        eexists. split; [reflexivity|]. by intros res' [= <-] Hf.
      * unfold body_error. destruct (BodyTruncated res).
        { cbn [doError fst snd]. autorewrite with world. rewrite <- ?app_assoc.
          eexists. split; [reflexivity|]. intros res' [= <-] _.
          rewrite lookup_insert_eq. split; [done|]. eexists. reflexivity. }
        rewrite tryServeFile_eq, Hroot. cbn zeta. unfold body_error.
        destruct (lookup (set_file _ _ _) _) as [e|parsed];
          [|destruct (BodyTruncated parsed)];
          cbn [doError fst snd]; autorewrite with world; rewrite <- ?app_assoc;
          (eexists; split; [reflexivity|]; intros res' [= <-] _;
           rewrite lookup_insert_eq; split; [done|]; eexists; reflexivity).
    + cbn [doError fst snd]. autorewrite with world. rewrite <- ?app_assoc.
      eexists. split; [reflexivity|]. by intros res' Hres'.
Qed.

Lemma cache_key_used_for_fetch_and_store_witness :
  let fs := mkFileServer "/data/cache" (SOURCE example_env) in
  let r := VersionSwitch (fun _ => "v 1"%string) (ServeHTTP (H := line_wire) fs)
             fresh_rw (GET "/static/../index.html" ∅ [])
             (mkWorld ∅ (fun _ => false) (fun _ => false)
                (fun u => if String.eqb (Path u) "/bucket/v%201/index.html"
                          then Some (mkResponse 200 ∅ "<html>" false) else None)
                1000 "v9" []) in
  served_path r = "/v%201/index.html"%string /\
  files (snd r) !! "/data/cache/v%201/index.html"%string = Some (line_Write (mkResponse 200 ∅ "<html>" false)) /\
  exists evs,
    trace (snd r) =
      EvOpen "/data/cache/v%201/index.html"
        :: EvGet (mkURL "http" "origin.example" "/bucket/v%201/index.html" ∅)
        :: EvCreate "/data/cache/v%201/index.html"
        :: EvWrite "/data/cache/v%201/index.html"
             (line_Write (mkResponse 200 ∅ "<html>" false)) :: evs.
Proof.
  cbn zeta.
  pose proof (cache_key_used_for_fetch_and_store (H := line_wire)
                (fun _ => "v 1"%string)
                (mkFileServer "/data/cache" (SOURCE example_env))
                fresh_rw (GET "/static/../index.html" ∅ [])
                (mkWorld ∅ (fun _ => false) (fun _ => false)
                   (fun u => if String.eqb (Path u) "/bucket/v%201/index.html"
                             then Some (mkResponse 200 ∅ "<html>" false) else None)
                   1000 "v9" [])) as Hw.
  cbn zeta in Hw. destruct Hw as (Hserved & _ & Hmiss).
  destruct Hmiss as (evs & Htr & Hres); [done|done|].
  destruct (Hres (mkResponse 200 ∅ "<html>" false)) as (Hfile & evs' & Hevs); [done|done|].
  split; [exact Hserved|]. split; [exact Hfile|].
  exists evs'. rewrite Htr, Hevs. reflexivity.
Defined.

(** ** The cookie and the Cache-Control header *)

Lemma Header_Get_Set key value h : Header_Get (Header_Set key value h) key = value.
Proof. unfold Header_Get, Header_Set. by rewrite lookup_insert_eq. Qed.

(** What each branch of the resolution leaves in the response writer. *)
Lemma resolveVersion_query dv rw req w :
  Values_Get (Query (URL req)) "version" <> EmptyString ->
  resolveVersion dv rw req w =
    (Values_Get (Query (URL req)) "version",
     rw_Header_Set "Cache-Control" "no-store"
       (http_SetCookie rw
          (mkCookie VERSION_COOKIE_NAME (Values_Get (Query (URL req)) "version")
                    "/" (Some (now w + time_Hour)%Z) false))).
Proof.
  intros Hq. unfold resolveVersion.
  by destruct (String.eqb_spec (Values_Get (Query (URL req)) "version") EmptyString).
Qed.

Lemma resolveVersion_cookie dv rw req w pre v post :
  Values_Get (Query (URL req)) "version" = EmptyString ->
  Cookies req = pre ++ (VERSION_COOKIE_NAME, v) :: post ->
  (forall c, In c pre -> fst c <> VERSION_COOKIE_NAME) ->
  resolveVersion dv rw req w =
    (v,
     rw_Header_Set "Cache-Control" "no-store"
       (http_SetCookie rw
          (mkCookie VERSION_COOKIE_NAME v EmptyString (Some (now w + time_Hour)%Z) false))).
Proof.
  intros Hq Hcs Hpre. unfold resolveVersion.
  by rewrite Hq, (Request_Cookie_first _ _ _ _ _ Hcs Hpre).
Qed.

Lemma resolveVersion_default dv rw req w :
  Values_Get (Query (URL req)) "version" = EmptyString ->
  (forall c, In c (Cookies req) -> fst c <> VERSION_COOKIE_NAME) ->
  resolveVersion dv rw req w = (dv w, rw).
Proof.
  intros Hq Hcs. unfold resolveVersion.
  by rewrite Hq, (Request_Cookie_none _ _ Hcs).
Qed.

(** C8, at a request that carries the cookie and no query parameter:
    the cookie sent back is the one read from the request with a new
    expiry, and a request cookie has no path, so the Set-Cookie line has
    no Path attribute where the claim says path [/]. *)
Theorem cookie_refresh_has_no_path :
  let r := resolveVersion (fun _ => "v1"%string) fresh_rw
             (GET "/static/js/main.js" ∅ [("version-override", "v2")]%string)
             example_world in
  fst r = "v2"%string /\
  Header_Get (rw_header (snd r)) "Cache-Control" = "no-store"%string /\
  rw_cookies (snd r) =
    [mkCookie "version-override" "v2" EmptyString (Some (1000 + time_Hour)%Z) false] /\
  Forall (fun c => Cookie_Path c <> "/"%string) (rw_cookies (snd r)).
Proof. cbn zeta. repeat split. by repeat constructor. Qed.

(** C10: with no [version] query value and a [version-override] cookie
    whose value is empty, the resolved version is the empty string
    whatever the default accessor is, the response is marked
    [Cache-Control: no-store], and the request is handed on with the
    path [Clean("/" + path)], which has no version element. *)
Theorem empty_cookie_gives_unversioned_path dv next rw req w pre post :
  Values_Get (Query (URL req)) "version" = EmptyString ->
  Cookies req = pre ++ (VERSION_COOKIE_NAME, EmptyString) :: post ->
  (forall c, In c pre -> fst c <> VERSION_COOKIE_NAME) ->
  let rw' := snd (resolveVersion dv rw req w) in
  fst (resolveVersion dv rw req w) = EmptyString /\
  (forall dv', resolveVersion dv' rw req w = resolveVersion dv rw req w) /\
  Header_Get (rw_header rw') "Cache-Control" = "no-store"%string /\
  VersionSwitch dv next rw req w =
    next rw' (set_Path (Clean (String.append "/" (Path (URL req)))) req) w.
Proof.
  intros Hq Hcs Hpre. cbn zeta. unfold VersionSwitch.
  rewrite (resolveVersion_cookie dv rw req w _ _ _ Hq Hcs Hpre). cbn [fst snd].
  repeat split.
  - intros dv'. by rewrite (resolveVersion_cookie dv' rw req w _ _ _ Hq Hcs Hpre).
  - cbn [rw_header rw_Header_Set]. apply Header_Get_Set.
  - fold (cache_key EmptyString (Path (URL req))). by rewrite cache_key_empty.
Qed.

Lemma empty_cookie_gives_unversioned_path_witness :
  let req := GET "/static/app.js" ∅ [("version-override", EmptyString)] in
  let dv := fun _ : World => "v1"%string in
  fst (resolveVersion dv fresh_rw req example_world) = EmptyString /\
  served_path (VersionSwitch dv (ServeHTTP (H := line_wire) (mkFileServer "/data/cache"
                 (SOURCE example_env))) fresh_rw req example_world) = "/static/app.js"%string.
Proof.
  cbn zeta.
  pose proof (empty_cookie_gives_unversioned_path (fun _ : World => "v1"%string)
                (ServeHTTP (H := line_wire)
                   (mkFileServer "/data/cache" (SOURCE example_env)))
                fresh_rw (GET "/static/app.js" ∅ [("version-override", EmptyString)])
                example_world [] []) as Hw.
  destruct Hw as (Hv & _ & _ & Hnext); [done|done|by intros c []|].
  split; [exact Hv|]. rewrite Hnext. unfold served_path.
  by rewrite ServeHTTP_req.
Defined.

(** ** Escaped versions as path elements *)

Lemma escape_byte_slash_free c : slash_free (escape_byte c) = true.
Proof. destruct c as [[] [] [] [] [] [] [] []]; reflexivity. Qed.

Lemma PathEscape_slash_free v : slash_free (list_ascii_of_string (PathEscape v)) = true.
Proof.
  unfold PathEscape. rewrite list_ascii_of_string_of_list_ascii.
  induction (list_ascii_of_string v) as [|c l IH]; [done|].
  cbn [flat_map]. by rewrite slash_free_app, escape_byte_slash_free, IH.
Qed.

Lemma is_dot_eq c : is_dot c = true -> c = dot.
Proof. apply Ascii.eqb_eq. Qed.

Lemma normal_elem_intro l :
  l <> [] -> slash_free l = true -> l <> [dot] -> l <> [dot; dot] -> normal_elem l = true.
Proof.
  intros Hne Hsf Hd Hdd. unfold normal_elem. destruct l as [|c l]; [done|].
  rewrite Hsf. cbn [andb]. apply andb_true_iff. split; apply negb_true_iff.
  - destruct l as [|d l]; [|done]. cbn. apply not_true_is_false.
    intros ->%is_dot_eq. done.
  - destruct l as [|d [|x l]]; try done. cbn. apply not_true_is_false.
    intros [->%is_dot_eq ->%is_dot_eq]%andb_prop. done.
Qed.

Lemma plain_name_normal v :
  plain_name (PathEscape v) -> normal_elem (list_ascii_of_string (PathEscape v)) = true.
Proof.
  intros (H0 & H1 & H2). apply normal_elem_intro.
  - intros Hb. apply H0. apply string_bytes_inj. by rewrite Hb.
  - apply PathEscape_slash_free.
  - intros Hb. apply H1. apply string_bytes_inj. by rewrite Hb.
  - intros Hb. apply H2. apply string_bytes_inj. by rewrite Hb.
Qed.

(** A plain version in front of a clean rooted path: the key is the two
    put together. *)
Lemma cache_key_plain v p :
  plain_name (PathEscape v) ->
  (exists t, p = String slash t /\ t <> EmptyString) -> Clean p = p ->
  cache_key v p = String slash (String.append (PathEscape v) p).
Proof.
  intros Hplain (t & -> & Ht) Hclean.
  rewrite cache_key_nonempty by apply Hplain.
  apply string_bytes_inj. rewrite Clean_bytes.
  cbn [list_ascii_of_string]. rewrite !list_ascii_of_string_app.
  cbn [list_ascii_of_string]. apply clean_bytes_prefix.
  - by apply plain_name_normal.
  - intros Hb. apply Ht. apply string_bytes_inj. by rewrite Hb.
  - apply (f_equal list_ascii_of_string) in Hclean. by rewrite Clean_bytes in Hclean.
Qed.

(** ** The chain of [main] *)

Lemma main_handler_eq `{WireFormat} env rw req w :
  main_handler env rw req w =
    VersionSwitch (defaultVersionFunc env)
      (ServeHTTP (mkFileServer (CACHE_DIR env) (SOURCE env))) rw
      (if String.eqb (Ext (Path (URL req))) EmptyString
       then set_Path "/index.html" req else req) w.
Proof. done. Qed.

Lemma VersionSwitch_served `{WireFormat} dv fs rw req w :
  served_path (VersionSwitch dv (ServeHTTP fs) rw req w) =
    cache_key (fst (resolveVersion dv rw req w)) (Path (URL req)).
Proof.
  unfold VersionSwitch, served_path.
  destruct (resolveVersion dv rw req w) as [v rw']. by rewrite ServeHTTP_req.
Qed.

Lemma main_handler_served `{WireFormat} env rw req w :
  served_path (main_handler env rw req w) =
    cache_key (fst (resolveVersion (defaultVersionFunc env) rw req w))
              (app_path (Path (URL req))).
Proof.
  rewrite main_handler_eq, VersionSwitch_served. unfold app_path.
  by destruct (String.eqb (Ext (Path (URL req))) EmptyString).
Qed.

(** C3, as the code has it: a request whose path has no extension is
    served [Clean("/" + Join(ev, "/index.html"))], [ev] the escaped
    resolved version, whatever the path was: [/ev/index.html] when [ev]
    is a plain name, [/index.html] when it is empty, [.] or [..].  A path
    with an extension is served [Clean("/" + Join(ev, path))], which is
    [/ev] followed by the path when [ev] is plain and the path is
    already a clean rooted path. *)
Theorem shell_route_serves_version_index `{WireFormat} env rw req w :
  let ev := PathEscape (fst (resolveVersion (defaultVersionFunc env) rw req w)) in
  let p := Path (URL req) in
  let served := served_path (main_handler env rw req w) in
  (Ext p = EmptyString ->
     served = Clean (String.append "/" (Join [ev; "/index.html"%string])) /\
     (plain_name ev -> served = String.append "/" (String.append ev "/index.html")) /\
     (~ plain_name ev -> served = "/index.html"%string)) /\
  (Ext p <> EmptyString ->
     served = Clean (String.append "/" (Join [ev; p])) /\
     (plain_name ev -> (exists t, p = String.append "/" t) -> Clean p = p ->
      served = String.append "/" (String.append ev p))).
Proof.
  cbn zeta. rewrite main_handler_served. unfold app_path.
  set (v := fst (resolveVersion (defaultVersionFunc env) rw req w)).
  split.
  - intros ->. cbn [String.eqb]. split; [done|]. split.
    + intros Hplain. apply cache_key_plain; [done| |done].
      eexists. split; [reflexivity|done].
    + intros Hnp. unfold cache_key.
      destruct (string_dec (PathEscape v) EmptyString) as [->|H0]; [done|].
      destruct (string_dec (PathEscape v) ".") as [->|H1]; [done|].
      destruct (string_dec (PathEscape v) "..") as [->|H2]; [done|].
      by destruct Hnp.
  - intros Hext. destruct (String.eqb_spec (Ext (Path (URL req))) EmptyString); [done|].
    split; [done|]. intros Hplain [t Ht] Hclean.
    apply cache_key_plain; [done| |done].
    exists t. split; [done|]. intros ->. apply Hext. by rewrite Ht.
Qed.

Lemma shell_route_serves_version_index_witness :
  served_path (main_handler (H := line_wire) example_env fresh_rw
                 (GET "/users/42" {["version"%string := ["v 2"%string]]} []) example_world)
    = "/v%202/index.html"%string /\
  served_path (main_handler (H := line_wire) example_env fresh_rw
                 (GET "/about" ∅ [("version-override", "."%string)]) example_world)
    = "/index.html"%string /\
  served_path (main_handler (H := line_wire) example_env fresh_rw
                 (GET "/static/app.js" ∅ []) example_world)
    = "/v1/static/app.js"%string.
Proof.
  split; [|split].
  - pose proof (shell_route_serves_version_index (H := line_wire) example_env fresh_rw
                  (GET "/users/42" {["version"%string := ["v 2"%string]]} [])
                  example_world) as Hw.
    destruct Hw as [Hw _]. destruct (Hw eq_refl) as (_ & Hplain & _).
    apply Hplain. by repeat split.
  - pose proof (shell_route_serves_version_index (H := line_wire) example_env fresh_rw
                  (GET "/about" ∅ [("version-override", "."%string)])
                  example_world) as Hw.
    destruct Hw as [Hw _]. destruct (Hw eq_refl) as (_ & _ & Hnp).
    apply Hnp. intros (_ & Hd & _). by apply Hd.
  - pose proof (shell_route_serves_version_index (H := line_wire) example_env fresh_rw
                  (GET "/static/app.js" ∅ []) example_world) as Hw.
    destruct Hw as [_ Hw]. destruct Hw as (_ & Hplain); [done|].
    apply Hplain; [by repeat split|by exists "static/app.js"%string|done].
Defined.

(** C3 as stated fails: with the version [..] a path without extension
    is served [/index.html], not [/../index.html]; and a path with an
    extension that climbs with [..] is served without the prefix of the
    resolved version [v1]. *)
Lemma shell_route_not_always_version_prefixed :
  (Ext "/about" = EmptyString /\
   fst (resolveVersion (defaultVersionFunc example_env) fresh_rw
          (GET "/about" {["version"%string := [".."%string]]} []) example_world)
     = ".."%string /\
   served_path (main_handler (H := line_wire) example_env fresh_rw
                  (GET "/about" {["version"%string := [".."%string]]} []) example_world)
     = "/index.html"%string /\
   "/index.html"%string <> "/../index.html"%string) /\
  (Ext "/a/../../x.js" = ".js"%string /\
   fst (resolveVersion (defaultVersionFunc example_env) fresh_rw
          (GET "/a/../../x.js" ∅ []) example_world) = "v1"%string /\
   served_path (main_handler (H := line_wire) example_env fresh_rw
                  (GET "/a/../../x.js" ∅ []) example_world)
     = "/x.js"%string /\
   "/x.js"%string <> "/v1/a/../../x.js"%string).
Proof. repeat split; done. Qed.

(** C4, as the code has it: the application shell routing runs before
    the version rewriting.  The extension test is made on the path of
    the request as it arrives; a path without extension is replaced by
    [/index.html], and it is this path that [VersionSwitch] then
    prefixes with the version. *)
Theorem shell_route_before_version_prefix `{WireFormat} env rw req w :
  let p := Path (URL req) in
  let v := fst (resolveVersion (defaultVersionFunc env) rw req w) in
  main_handler env rw req w =
    VersionSwitch (defaultVersionFunc env)
      (ServeHTTP (mkFileServer (CACHE_DIR env) (SOURCE env))) rw
      (if String.eqb (Ext p) EmptyString then set_Path "/index.html" req else req) w /\
  served_path (main_handler env rw req w) =
    Clean (String.append "/"
             (Join [PathEscape v;
                    if String.eqb (Ext p) EmptyString then "/index.html"%string else p])).
Proof. cbn zeta. split; [done|]. by rewrite main_handler_served. Qed.

(** C4 as stated fails: for [GET /about] with default version [v1] the
    version-prefixed path [/v1/about] has no extension, and the claim
    has it replaced by [/index.html]; the code serves [/v1/index.html].
    With the version [v1.2] and the path [/], the prefixed path [/v1.2]
    has an extension, yet the code serves [/v1.2/index.html]. *)
Lemma shell_route_not_after_version_prefix :
  (cache_key "v1" "/about" = "/v1/about"%string /\
   Ext "/v1/about" = EmptyString /\
   served_path (prefix_first_handler (H := line_wire) example_env fresh_rw
                  (GET "/about" ∅ []) example_world) = "/index.html"%string /\
   served_path (main_handler (H := line_wire) example_env fresh_rw
                  (GET "/about" ∅ []) example_world) = "/v1/index.html"%string) /\
  (cache_key "v1.2" "/" = "/v1.2"%string /\
   Ext "/v1.2" = ".2"%string /\
   served_path (prefix_first_handler (H := line_wire) example_env fresh_rw
                  (GET "/" {["version"%string := ["v1.2"%string]]} []) example_world)
     = "/v1.2"%string /\
   served_path (main_handler (H := line_wire) example_env fresh_rw
                  (GET "/" {["version"%string := ["v1.2"%string]]} []) example_world)
     = "/v1.2/index.html"%string).
Proof. repeat split. Qed.

(** ** Serving a parsed response *)

Lemma Header_Add_first key value h k v vs :
  h !! k = Some (v :: vs) -> exists vs', Header_Add key value h !! k = Some (v :: vs').
Proof.
  intros Hk. unfold Header_Add. destruct (decide (key = k)) as [->|Hne].
  - rewrite lookup_insert_eq, Hk. cbn. eauto.
  - rewrite lookup_insert_ne by done. eauto.
Qed.

Lemma copy_headers_first src dst k v vs :
  dst !! k = Some (v :: vs) -> exists vs', copy_headers src dst !! k = Some (v :: vs').
Proof.
  intros Hk. unfold copy_headers.
  apply (map_fold_weak_ind (fun h _ => exists vs', h !! k = Some (v :: vs'))); [eauto|].
  intros key vals m h _ [vs' Hh]. revert h vs' Hh.
  induction vals as [|val vals IH]; intros h vs' Hh; cbn [foldl]; [eauto|].
  destruct (Header_Add_first key val h k v vs' Hh) as [vs'' Hadd]. eauto.
Qed.

(** The first value of a header that was set before the copy stays first. *)
Lemma serve_keeps_header parsed rw k v :
  Header_Get (rw_header rw) k = v -> v <> EmptyString ->
  Header_Get (rw_header (serve parsed rw)) k = v.
Proof.
  unfold Header_Get at 1. intros Hget Hv.
  destruct (rw_header rw !! k) as [[|v0 vs]|] eqn:Hk; try done. subst v0.
  destruct (copy_headers_first (Header parsed) (rw_header rw) k v vs Hk) as [vs' Hc].
  unfold serve, io_Copy, WriteHeader. cbn [rw_status rw_header snd].
  destruct (rw_status rw); cbn [rw_status rw_header]; unfold Header_Get; by rewrite Hc.
Qed.

Lemma serve_status parsed rw :
  rw_status rw = None -> rw_status (serve parsed rw) = Some (StatusCode parsed).
Proof.
  intros Hs. unfold serve, io_Copy, WriteHeader. cbn [rw_status snd]. by rewrite Hs.
Qed.

Lemma serve_body parsed rw :
  rw_body (serve parsed rw) = String.append (rw_body rw) (Body parsed).
Proof.
  unfold serve, io_Copy, WriteHeader. cbn [rw_status rw_body snd].
  by destruct (rw_status rw).
Qed.

Lemma X_Cache_hit rw :
  Header_Get (rw_header (rw_Header_Set "X-Cache" "hit" rw)) "X-Cache" = "hit"%string.
Proof. apply Header_Get_Set. Qed.

Lemma X_Cache_miss rw :
  Header_Get (rw_header (rw_Header_Set "X-Cache" "miss" rw)) "X-Cache" = "miss"%string.
Proof. apply Header_Get_Set. Qed.

(** ** Failures of the file server *)

(** C9: when the cache file of a request exists and is not a serialized
    HTTP response, the client gets status 500, the file store is left as
    it was (the bad file stays), the only events are the lookup and the
    logged error (the origin is not asked), and the response keeps the
    header [X-Cache: hit] that was set before the lookup. *)
Theorem malformed_cache_file_is_500_and_stays `{WireFormat} fs rw req w data :
  let n := open_name fs (Clean (String.append "/" (Clean (Path (URL req))))) in
  let r := ServeHTTP fs rw req w in
  rw_status rw = None ->
  cannot_open w n = false -> files w !! n = Some data -> ReadResponse data = None ->
  rw_status (fst (fst r)) = Some 500 /\
  files (snd r) = files w /\
  trace (snd r) = trace w ++ [EvOpen n; EvLog ErrMalformedResponse] /\
  count_events is_get [EvOpen n; EvLog ErrMalformedResponse] = 0 /\
  Header_Get (rw_header (fst (fst r))) "X-Cache" = "hit"%string.
Proof.
  cbn zeta. intros Hs Hden Hfile Hparse.
  unfold ServeHTTP. rewrite tryServeFile_eq. cbn zeta.
  unfold lookup. rewrite Hden, Hfile, Hparse. cbn [os_IsNotExist doError fst snd].
  autorewrite with world. rewrite <- app_assoc.
  unfold WriteHeader. cbn [rw_status rw_Header_Set rw_header]. rewrite Hs.
  cbn [rw_status rw_header]. repeat split. apply Header_Get_Set.
Qed.

Lemma malformed_cache_file_is_500_and_stays_witness :
  let w := set_file "/data/cache/v1/index.html" "garbage" example_world in
  let r := ServeHTTP (H := line_wire) (mkFileServer "/data/cache" (SOURCE example_env))
             fresh_rw (GET "/v1/index.html" ∅ []) w in
  rw_status (fst (fst r)) = Some 500 /\
  files (snd r) !! "/data/cache/v1/index.html"%string = Some "garbage"%string /\
  Header_Get (rw_header (fst (fst r))) "X-Cache" = "hit"%string.
Proof.
  cbn zeta.
  pose proof (malformed_cache_file_is_500_and_stays (H := line_wire)
                (mkFileServer "/data/cache" (SOURCE example_env))
                fresh_rw (GET "/v1/index.html" ∅ [])
                (set_file "/data/cache/v1/index.html" "garbage" example_world)
                "garbage"%string) as Hw.
  destruct Hw as (Hst & Hfiles & _ & _ & Hx); [done|done|done|done|].
  split; [exact Hst|]. split; [|exact Hx]. by rewrite Hfiles.
Defined.

(** C6: on a cache miss with the origin unreachable (the GET fails in
    transport) the client gets status 500 and the file store is
    unchanged: no cache file is created. *)
Theorem origin_unreachable_is_500_and_nothing_stored `{WireFormat} fs rw req w :
  let name := Clean (Path (URL req)) in
  let n := open_name fs (Clean (String.append "/" name)) in
  let r := ServeHTTP fs rw req w in
  rw_status rw = None ->
  cannot_open w n = false -> files w !! n = None ->
  origin w (origin_url fs name) = None ->
  rw_status (fst (fst r)) = Some 500 /\
  files (snd r) = files w /\
  trace (snd r) = trace w ++ [EvOpen n; EvGet (origin_url fs name); EvLog ErrTransport].
Proof.
  cbn zeta. intros Hs Hden Hfile Horigin.
  unfold ServeHTTP. rewrite tryServeFile_eq. cbn zeta.
  unfold lookup. rewrite Hden, Hfile. cbn [os_IsNotExist].
  rewrite doCacheFetch_eq. cbn zeta. autorewrite with world. rewrite Horigin.
  cbn [doError fst snd]. autorewrite with world. rewrite <- !app_assoc.
  unfold WriteHeader. cbn [rw_status rw_Header_Set]. rewrite Hs. done.
Qed.

Lemma origin_unreachable_is_500_and_nothing_stored_witness :
  let r := ServeHTTP (H := line_wire) (mkFileServer "/data/cache" (SOURCE example_env))
             fresh_rw (GET "/v2/down.js" ∅ []) example_world in
  rw_status (fst (fst r)) = Some 500 /\ files (snd r) = ∅.
Proof.
  cbn zeta.
  pose proof (origin_unreachable_is_500_and_nothing_stored (H := line_wire)
                (mkFileServer "/data/cache" (SOURCE example_env))
                fresh_rw (GET "/v2/down.js" ∅ []) example_world) as Hw.
  destruct Hw as (Hst & Hfiles & _); [done|done|done|done|].
  split; [exact Hst|exact Hfiles].
Defined.

(** ** The miss/hit protocol *)


Lemma WriteHeader_fresh code rw : rw_status rw = None -> rw_status (WriteHeader code rw) = Some code.
Proof. intros Hs. unfold WriteHeader. by rewrite Hs. Qed.



Lemma open_name_store_name fs key :
  root fs <> EmptyString -> open_name fs key = store_name fs key.
Proof.
  intros Hroot. unfold open_name, store_name.
  by destruct (String.eqb_spec (root fs) EmptyString).
Qed.

Lemma WriteHeader_sent code c rw : rw_status rw = Some c -> WriteHeader code rw = rw.
Proof. intros Hs. unfold WriteHeader. by rewrite Hs. Qed.





(** ** Two requests, run *)

(** [GET /] with no version state and the default version [v1]: the
    body of the origin's [/v1/index.html], a miss first and a hit on the
    same request made again. *)
Example default_version_miss_then_hit :
  let h := main_handler (H := line_wire) example_env in
  let r1 := h fresh_rw (GET "/" ∅ []) example_world in
  let r2 := h fresh_rw (GET "/" ∅ []) (snd r1) in
  (served_path r1 = "/v1/index.html"%string /\
   rw_status (fst (fst r1)) = Some 200 /\
   rw_body (fst (fst r1)) = "<html>v1</html>"%string /\
   Header_Get (rw_header (fst (fst r1))) "X-Cache" = "miss"%string /\
   rw_cookies (fst (fst r1)) = []) /\
  (rw_status (fst (fst r2)) = Some 200 /\
   rw_body (fst (fst r2)) = "<html>v1</html>"%string /\
   Header_Get (rw_header (fst (fst r2))) "X-Cache" = "hit"%string /\
   count_events is_get (trace (snd r2)) = 1).
Proof. repeat split. Qed.

(** [GET /app.js?version=v2]: the key is [/v2/app.js] and the response
    sets the cookie [version-override=v2] for the path [/], one hour
    ahead, and [Cache-Control: no-store]. *)
Example query_version_sets_cookie :
  let r := main_handler (H := line_wire) example_env fresh_rw
             (GET "/app.js" {["version"%string := ["v2"%string]]} []) example_world in
  served_path r = "/v2/app.js"%string /\
  rw_cookies (fst (fst r)) =
    [mkCookie "version-override" "v2" "/" (Some (now example_world + time_Hour)%Z) false] /\
  Header_Get (rw_header (fst (fst r))) "Cache-Control" = "no-store"%string.
Proof. repeat split. Qed.

(** * More of the code *)

(** ** More on [Clean]: roots, keys and degenerate versions *)

Lemma split_join_app es rest :
  es <> [] -> Forall (fun e => slash_free e = true) es ->
  split_slash (join_slash es ++ slash :: rest) = es ++ split_slash rest.
Proof.
  induction es as [|e es IH]; [done|]. intros _ [He Hes]%Forall_cons.
  destruct es as [|e' es].
  - cbn [join_slash app]. by apply split_slash_app.
  - change (join_slash (e :: e' :: es)) with (e ++ slash :: join_slash (e' :: es)).
    rewrite <- app_assoc. cbn [app]. rewrite split_slash_app by done.
    by rewrite IH.
Qed.

Lemma join_slash_app a b :
  a <> [] -> b <> [] -> join_slash (a ++ b) = join_slash a ++ slash :: join_slash b.
Proof.
  induction a as [|e a IH]; [done|]. intros _ Hb.
  destruct a as [|e' a].
  - destruct b; [done|]. done.
  - change (join_slash ((e :: e' :: a) ++ b)) with (e ++ slash :: join_slash ((e' :: a) ++ b)).
    rewrite IH by done.
    change (join_slash (e :: e' :: a)) with (e ++ slash :: join_slash (e' :: a)).
    by rewrite <- app_assoc.
Qed.

(** A clean rooted path in front of another: the names of both, in a row. *)
Lemma clean_bytes_root_key er ek :
  Forall (fun e => normal_elem e = true) er ->
  Forall (fun e => normal_elem e = true) ek ->
  clean_bytes (slash :: join_slash er ++ slash :: slash :: join_slash ek) =
    slash :: join_slash (er ++ ek).
Proof.
  intros Her Hek.
  rewrite clean_bytes_fwd. cbn [clean_state]. rewrite is_slash_slash, dot_if_empty_fwd_true.
  assert (arun true (split_slash (join_slash er ++ slash :: slash :: join_slash ek)) (0, [])
          = (0, rev (er ++ ek))) as ->.
  { destruct er as [|e er].
    - cbn [join_slash app split_slash]. rewrite is_slash_slash, !arun_cons. cbn [astep].
      by rewrite arun_split_join.
    - rewrite split_join_app by auto using normal_slash_free.
      rewrite arun_app, arun_normal by done. cbn [split_slash].
      rewrite is_slash_slash, arun_cons. cbn [astep].
      destruct ek as [|e' ek].
      + cbn. by rewrite !app_nil_r.
      + rewrite split_join_slash by auto using normal_slash_free.
        rewrite arun_normal by done. by rewrite rev_app_distr, app_nil_r. }
  unfold fwd, elems_of. cbn [fst snd app]. by rewrite rev_involutive.
Qed.

(** A cleaned unrooted path does not begin with a slash. *)
Lemma clean_bytes_unrooted c p :
  is_slash c = false ->
  exists c' q, clean_bytes (c :: p) = c' :: q /\ is_slash c' = false.
Proof.
  intros Hc. rewrite clean_bytes_fwd. pose proof (clean_state_ok (c :: p)) as Hok.
  cbn [clean_state] in *. rewrite Hc in *. cbn [snd] in Hok.
  set (a := arun false _ _) in *. clearbody a.
  destruct (elems_of_false_ok a Hok) as [Hseg _].
  unfold fwd. cbn [app].
  destruct (elems_of false a) as [|e es] eqn:Hes.
  - cbn. exists dot, []. done.
  - destruct (join_slash_head (e :: es)) as (c' & q & Hq & Hc'); [done|done|].
    rewrite Hq. cbn. eauto.
Qed.

(** A leading [.] or [..] element of a rooted path is dropped. *)
Lemma clean_bytes_root_dot p :
  clean_bytes (slash :: dot :: slash :: p) = clean_bytes (slash :: p).
Proof. by rewrite !clean_bytes_fwd. Qed.

Lemma clean_bytes_root_dotdot p :
  clean_bytes (slash :: dot :: dot :: slash :: p) = clean_bytes (slash :: p).
Proof. by rewrite !clean_bytes_fwd. Qed.

Lemma string_append_empty s : String.append s EmptyString = s.
Proof.
  induction s as [|c s IH]; [done|].
  change (String c (String.append s EmptyString) = String c s). by rewrite IH.
Qed.

(** Joining a clean root directory and a key: the key appended to the
    root, nothing climbing out and nothing cleaned away. *)
Lemma Join_root_key root key :
  Clean root = root ->
  (exists r, root = String slash r /\ r <> EmptyString) ->
  (exists x, key = Clean (String slash x)) ->
  Join [root; key] = under_root root key.
Proof.
  intros Hroot (r & -> & Hr) (x & ->).
  assert (exists er, er <> [] /\ Forall (fun e => normal_elem e = true) er /\
                     list_ascii_of_string r = join_slash er) as (er & Hne & Her & Hrb).
  { apply (f_equal list_ascii_of_string) in Hroot. rewrite Clean_bytes in Hroot.
    cbn [list_ascii_of_string] in Hroot.
    apply clean_rooted_inv in Hroot as (er & Her & Hrb).
    exists er. split; [|done]. intros ->. apply Hr. apply string_bytes_inj.
    by rewrite Hrb. }
  assert (exists ek, Forall (fun e => normal_elem e = true) ek /\
                     list_ascii_of_string (Clean (String slash x)) = slash :: join_slash ek)
    as (ek & Hek & Hkb).
  { rewrite Clean_bytes. cbn [list_ascii_of_string]. rewrite clean_bytes_fwd.
    cbn [clean_state]. rewrite is_slash_slash, dot_if_empty_fwd_true.
    set (a := arun true _ _).
    assert (stack_ok a) as Hok
      by (apply arun_stack_ok; [apply split_slash_free|constructor]).
    exists (rev (snd a)). split; [by apply stack_ok_rev|done]. }
  rewrite Join_pair_nonempty by done.
  apply string_bytes_inj. rewrite Clean_bytes.
  rewrite list_ascii_of_string_app. cbn [list_ascii_of_string app].
  rewrite Hrb, Hkb, clean_bytes_root_key by done.
  unfold under_root.
  destruct ek as [|e ek].
  - replace (Clean (String slash x)) with "/"%string
      by (apply string_bytes_inj; by rewrite Hkb).
    cbn [String.eqb Ascii.eqb Bool.eqb]. rewrite string_append_empty.
    cbn [list_ascii_of_string]. by rewrite Hrb, app_nil_r.
  - destruct (String.eqb_spec (Clean (String slash x)) "/") as [Heq|_].
    + destruct (join_slash_head (e :: ek)) as (c & q & Hq & _);
        [done|by apply stack_ok_seg with (a := (0, e :: ek))|].
      rewrite Heq, Hq in Hkb. done.
    + rewrite list_ascii_of_string_app. cbn [list_ascii_of_string].
      rewrite Hrb, Hkb, join_slash_app by done. done.
Qed.

(** ** More on the file server *)

(** The events of one run, for any request path. *)
Lemma ServeHTTP_touches `{WireFormat} fs rw req w :
  exists evs, trace (snd (ServeHTTP fs rw req w)) = trace w ++ evs /\
              Forall (touches fs (Clean (Path (URL req)))) evs.
Proof.
  unfold ServeHTTP. rewrite tryServeFile_eq. cbn zeta.
  destruct (lookup w _) as [e|parsed].
  - destruct e; cbn [os_IsNotExist]; try trace_done.
    rewrite doCacheFetch_eq. cbn zeta. autorewrite with world.
    destruct (origin w _) as [res|]; [|trace_done].
    destruct (cannot_create w _); [trace_done|].
    unfold body_error. destruct (BodyTruncated res); [trace_done|].
    rewrite tryServeFile_eq. cbn zeta. unfold body_error.
    destruct (lookup (set_file _ _ _) _) as [e|parsed];
      [|destruct (BodyTruncated parsed)]; trace_done.
  - unfold body_error. destruct (BodyTruncated parsed); cbn [os_IsNotExist]; trace_done.
Qed.

Lemma names_under_root fs key :
  Clean (root fs) = root fs ->
  (exists r, root fs = String slash r /\ r <> EmptyString) ->
  (exists x, key = Clean (String slash x)) ->
  open_name fs key = under_root (root fs) key /\
  store_name fs key = under_root (root fs) key.
Proof.
  intros Hclean Hroot Hkey. unfold open_name, store_name, filepath_Join.
  destruct Hroot as (r & Hr & Hne).
  destruct (String.eqb_spec (root fs) EmptyString) as [Hempty|_];
    [by rewrite Hempty in Hr|].
  split; apply Join_root_key; eauto.
Qed.

(** X1: whatever path a request carries, the files the file server opens,
    creates and writes are the cache root followed by the cleaned rooted
    path (the root itself for the path [/]): a clean path below the
    root, with no [..] left to climb out of it. *)
Theorem cache_files_stay_under_root `{WireFormat} fs rw req w :
  Clean (root fs) = root fs ->
  (exists r, root fs = String.append "/" r /\ r <> EmptyString) ->
  let key := Clean (String.append "/" (Clean (Path (URL req)))) in
  let n := under_root (root fs) key in
  Clean key = key /\ Clean n = n /\
  exists evs,
    trace (snd (ServeHTTP fs rw req w)) = trace w ++ evs /\
    Forall (on_file n) evs.
Proof.
  intros Hclean Hroot. cbn zeta.
  destruct (names_under_root fs (Clean (String.append "/" (Clean (Path (URL req)))))
              Hclean Hroot) as [Hopen Hstore]; [by eexists|].
  split; [apply Clean_idem|]. split.
  - rewrite <- Hstore. unfold store_name, filepath_Join.
    destruct Hroot as (r & Hr & _). rewrite Join_pair_nonempty by (by rewrite Hr).
    apply Clean_idem.
  - destruct (ServeHTTP_touches fs rw req w) as (evs & Htr & Hevs).
    exists evs. split; [done|].
    eapply Forall_impl; [exact Hevs|]. intros e. unfold touches, on_file.
    rewrite Hopen, Hstore. by destruct e.
Qed.

Lemma cache_files_stay_under_root_witness :
  let r := ServeHTTP (H := line_wire) (mkFileServer "/data/cache" (SOURCE example_env))
             fresh_rw (GET "/v1/../../../etc/passwd" ∅ []) example_world in
  exists evs, trace (snd r) = evs /\ Forall (on_file "/data/cache/etc/passwd") evs.
Proof.
  cbn zeta.
  pose proof (cache_files_stay_under_root (H := line_wire)
                (mkFileServer "/data/cache" (SOURCE example_env))
                fresh_rw (GET "/v1/../../../etc/passwd" ∅ []) example_world) as Hw.
  destruct Hw as (_ & _ & evs & Htr & Hevs); [done|by exists "data/cache"%string|].
  exists evs. split; [exact Htr|exact Hevs].
Defined.

(** X2: a file that is there is what the request gets, whatever it holds:
    the origin is not asked, nothing is created or written, the file
    store stays as it is and the response is marked [X-Cache: hit]. *)
Theorem cached_file_is_never_fetched_again `{WireFormat} fs rw req w data :
  let n := open_name fs (Clean (String.append "/" (Clean (Path (URL req))))) in
  let r := ServeHTTP fs rw req w in
  cannot_open w n = false -> files w !! n = Some data ->
  files (snd r) = files w /\
  Header_Get (rw_header (fst (fst r))) "X-Cache" = "hit"%string /\
  exists evs,
    trace (snd r) = trace w ++ evs /\
    count_events is_open evs = 1 /\
    count_events is_get evs = 0 /\
    count_events is_create evs = 0 /\
    count_events is_write evs = 0.
Proof.
  cbn zeta. intros Hopen Hfile.
  unfold ServeHTTP. rewrite tryServeFile_eq. cbn zeta.
  unfold lookup. rewrite Hopen, Hfile.
  destruct (ReadResponse data) as [parsed|].
  - unfold body_error. destruct (BodyTruncated parsed); cbn [os_IsNotExist doError fst snd];
      autorewrite with world; rewrite <- ?app_assoc.
    + split; [done|]. split.
      * unfold WriteHeader. destruct (rw_status _);
          (apply serve_keeps_header; [apply X_Cache_hit|done]).
      * eexists. split; [reflexivity|]. done.
    + split; [done|]. split; [apply serve_keeps_header; [apply X_Cache_hit|done]|].
      eexists. split; [reflexivity|]. done.
  - cbn [os_IsNotExist doError fst snd]. autorewrite with world. rewrite <- ?app_assoc.
    split; [done|]. split.
    + unfold WriteHeader. destruct (rw_status _); apply Header_Get_Set.
    + eexists. split; [reflexivity|]. done.
Qed.

Lemma cached_file_is_never_fetched_again_witness :
  let w := set_file "/data/cache/v1/index.html" "garbage" example_world in
  let r := ServeHTTP (H := line_wire) (mkFileServer "/data/cache" (SOURCE example_env))
             fresh_rw (GET "/v1/index.html" ∅ []) w in
  files (snd r) = files w /\ count_events is_get (trace (snd r)) = 0.
Proof.
  cbn zeta.
  pose proof (cached_file_is_never_fetched_again (H := line_wire)
                (mkFileServer "/data/cache" (SOURCE example_env))
                fresh_rw (GET "/v1/index.html" ∅ [])
                (set_file "/data/cache/v1/index.html" "garbage" example_world)
                "garbage"%string) as Hw.
  destruct Hw as (Hfiles & _ & evs & Htr & _ & Hget & _); [done|done|].
  split; [exact Hfiles|]. rewrite Htr. exact Hget.
Defined.

(** X4: a miss whose file cannot be created: the origin was asked once, the
    client gets status 500 with [X-Cache: miss], and the file store is
    as it was. *)
Theorem create_failure_is_500_and_nothing_stored `{WireFormat} fs rw req w res :
  let name := Clean (Path (URL req)) in
  let key := Clean (String.append "/" name) in
  let r := ServeHTTP fs rw req w in
  rw_status rw = None ->
  cannot_open w (open_name fs key) = false -> files w !! open_name fs key = None ->
  origin w (origin_url fs name) = Some res ->
  cannot_create w (store_name fs key) = true ->
  rw_status (fst (fst r)) = Some 500 /\
  Header_Get (rw_header (fst (fst r))) "X-Cache" = "miss"%string /\
  files (snd r) = files w /\
  trace (snd r) =
    trace w ++ [EvOpen (open_name fs key); EvGet (origin_url fs name);
                EvCreate (store_name fs key); EvLog EACCES].
Proof.
  cbn zeta. intros Hs Hopen Hfile Horigin Hcreate.
  unfold ServeHTTP. rewrite tryServeFile_eq. cbn zeta.
  unfold lookup. rewrite Hopen, Hfile. cbn [os_IsNotExist].
  rewrite doCacheFetch_eq. cbn zeta. autorewrite with world. rewrite Horigin, Hcreate.
  cbn [doError fst snd]. autorewrite with world. rewrite <- !app_assoc.
  unfold WriteHeader. cbn [rw_status rw_Header_Set]. rewrite Hs.
  cbn [rw_status rw_header]. repeat split. apply Header_Get_Set.
Qed.

Lemma create_failure_is_500_and_nothing_stored_witness :
  let w := mkWorld ∅ (fun _ => false) (fun _ => true) example_origin 1000 "v9" [] in
  let r := ServeHTTP (H := line_wire) (mkFileServer "/data/cache" (SOURCE example_env))
             fresh_rw (GET "/v1/index.html" ∅ []) w in
  rw_status (fst (fst r)) = Some 500 /\ files (snd r) = ∅.
Proof.
  cbn zeta.
  pose proof (create_failure_is_500_and_nothing_stored (H := line_wire)
                (mkFileServer "/data/cache" (SOURCE example_env))
                fresh_rw (GET "/v1/index.html" ∅ [])
                (mkWorld ∅ (fun _ => false) (fun _ => true) example_origin 1000 "v9" [])
                (mkResponse 200 ∅ "<html>v1</html>" false)) as Hw.
  destruct Hw as (Hst & _ & Hfiles & _); [done..|].
  split; [exact Hst|exact Hfiles].
Defined.

(** X5: a miss whose response body breaks off while it is written: the
    client gets status 500, and the bytes written so far stay as the
    cache file.  The next request for that name finds the file and is
    answered from it: the origin is not asked again. *)
Theorem broken_fetch_leaves_partial_file `{WireFormat} fs rw req w res rw2 req2 :
  let name := Clean (Path (URL req)) in
  let n := store_name fs (Clean (String.append "/" name)) in
  let r1 := ServeHTTP fs rw req w in
  let r2 := ServeHTTP fs rw2 req2 (snd r1) in
  root fs <> EmptyString ->
  rw_status rw = None ->
  Clean (Path (URL req2)) = name ->
  cannot_open w n = false -> cannot_create w n = false -> files w !! n = None ->
  origin w (origin_url fs name) = Some res -> BodyTruncated res = true ->
  (rw_status (fst (fst r1)) = Some 500 /\
   files (snd r1) !! n = Some (Response_Write res) /\
   trace (snd r1) =
     trace w ++ [EvOpen n; EvGet (origin_url fs name); EvCreate n;
                 EvWrite n (Response_Write res); EvLog ErrUnexpectedEOF]) /\
  (files (snd r2) = files (snd r1) /\
   exists evs, trace (snd r2) = trace (snd r1) ++ evs /\ count_events is_get evs = 0).
Proof.
  cbn zeta. intros Hroot Hs Hname2 Hopen Hcreate Hfile Horigin Htrunc.
  set (name := Clean (Path (URL req))) in *.
  set (n := store_name fs (Clean (String.append "/" name))) in *.
  assert (open_name fs (Clean (String.append "/" name)) = n) as Hon
    by (by apply open_name_store_name).
  assert (ServeHTTP fs rw req w =
            (WriteHeader 500
               (rw_Header_Set "X-Cache" "miss" (rw_Header_Set "X-Cache" "hit" rw)),
             req,
             emit (EvLog ErrUnexpectedEOF)
               (set_file n (Response_Write res)
                  (emit (EvWrite n (Response_Write res))
                     (set_file n EmptyString
                        (emit (EvCreate n)
                           (emit (EvGet (origin_url fs name)) (emit (EvOpen n) w)))))))) as Hr1.
  { unfold ServeHTTP. fold name. rewrite tryServeFile_eq, Hon. cbn zeta.
    unfold lookup at 1. rewrite Hopen, Hfile. cbn [os_IsNotExist].
    rewrite doCacheFetch_eq. fold n. cbn zeta. autorewrite with world.
    rewrite Horigin, Hcreate. unfold body_error. by rewrite Htrunc. }
  rewrite Hr1. cbn [fst snd]. split.
  - autorewrite with world. rewrite lookup_insert_eq, <- !app_assoc.
    split; [|done]. by apply WriteHeader_fresh.
  - set (w1 := emit (EvLog ErrUnexpectedEOF) _).
    assert (cannot_open w1 n = false) as Hopen1 by (subst w1; by autorewrite with world).
    assert (files w1 !! n = Some (Response_Write res)) as Hfile1
      by (subst w1; autorewrite with world; by rewrite lookup_insert_eq).
    clearbody w1.
    unfold ServeHTTP. rewrite Hname2. fold name. rewrite tryServeFile_eq, Hon. cbn zeta.
    unfold lookup. rewrite Hopen1, Hfile1.
    destruct (ReadResponse _) as [parsed|];
      [unfold body_error; destruct (BodyTruncated parsed)|];
      cbn [os_IsNotExist doError fst snd]; autorewrite with world;
      rewrite <- ?app_assoc; (split; [done|]); eexists; (split; [reflexivity|done]).
Qed.

Lemma broken_fetch_leaves_partial_file_witness :
  let w := mkWorld ∅ (fun _ => false) (fun _ => false)
             (fun _ => Some (mkResponse 200 ∅ "<html>v" true)) 1000 "v9" [] in
  let fs := mkFileServer "/data/cache" (SOURCE example_env) in
  let r1 := ServeHTTP (H := line_wire) fs fresh_rw (GET "/v1/index.html" ∅ []) w in
  let r2 := ServeHTTP (H := line_wire) fs fresh_rw (GET "/v1/index.html" ∅ []) (snd r1) in
  rw_status (fst (fst r1)) = Some 500 /\
  is_Some (files (snd r1) !! "/data/cache/v1/index.html"%string) /\
  files (snd r2) = files (snd r1).
Proof.
  cbn zeta.
  pose proof (broken_fetch_leaves_partial_file (H := line_wire)
                (mkFileServer "/data/cache" (SOURCE example_env))
                fresh_rw (GET "/v1/index.html" ∅ [])
                (mkWorld ∅ (fun _ => false) (fun _ => false)
                   (fun _ => Some (mkResponse 200 ∅ "<html>v" true)) 1000 "v9" [])
                (mkResponse 200 ∅ "<html>v" true)
                fresh_rw (GET "/v1/index.html" ∅ [])) as Hw.
  destruct Hw as [(Hst & Hfile & _) (Hfiles & _)]; [done..|].
  split; [exact Hst|]. split; [|exact Hfiles]. eexists. exact Hfile.
Defined.

(** X6: a cache file whose body is cut short is served all the same: the
    client gets the stored status and the bytes there are, the error is
    logged, and the status 500 of [doError] comes too late to be sent. *)
Theorem short_cache_file_is_served_with_its_status `{WireFormat} fs rw req w data parsed :
  let n := open_name fs (Clean (String.append "/" (Clean (Path (URL req))))) in
  let r := ServeHTTP fs rw req w in
  rw_status rw = None ->
  cannot_open w n = false -> files w !! n = Some data ->
  ReadResponse data = Some parsed -> BodyTruncated parsed = true ->
  rw_status (fst (fst r)) = Some (StatusCode parsed) /\
  rw_body (fst (fst r)) = String.append (rw_body rw) (Body parsed) /\
  trace (snd r) = trace w ++ [EvOpen n; EvLog ErrUnexpectedEOF] /\
  files (snd r) = files w.
Proof.
  cbn zeta. intros Hs Hopen Hfile Hparse Htrunc.
  unfold ServeHTTP. rewrite tryServeFile_eq. cbn zeta.
  unfold lookup. rewrite Hopen, Hfile, Hparse. unfold body_error. rewrite Htrunc.
  cbn [os_IsNotExist doError fst snd]. autorewrite with world. rewrite <- app_assoc.
  assert (rw_status (serve parsed (rw_Header_Set "X-Cache" "hit" rw))
          = Some (StatusCode parsed)) as Hst by (by apply serve_status).
  rewrite (WriteHeader_sent _ _ _ Hst). by rewrite serve_body.
Qed.

Lemma short_cache_file_is_served_with_its_status_witness :
  let wire := {| Response_Write := line_Write;
                 ReadResponse := fun _ => Some (mkResponse 200 ∅ "<html>" true) |} in
  let w := set_file "/data/cache/v1/index.html" "200" example_world in
  let r := ServeHTTP (H := wire) (mkFileServer "/data/cache" (SOURCE example_env))
             fresh_rw (GET "/v1/index.html" ∅ []) w in
  rw_status (fst (fst r)) = Some 200 /\ rw_body (fst (fst r)) = "<html>"%string.
Proof.
  cbn zeta.
  pose proof (short_cache_file_is_served_with_its_status
                (H := {| Response_Write := line_Write;
                         ReadResponse := fun _ => Some (mkResponse 200 ∅ "<html>" true) |})
                (mkFileServer "/data/cache" (SOURCE example_env))
                fresh_rw (GET "/v1/index.html" ∅ [])
                (set_file "/data/cache/v1/index.html" "200" example_world)
                "200"%string (mkResponse 200 ∅ "<html>" true)) as Hw.
  destruct Hw as (Hst & Hbody & _); [done..|].
  split; [exact Hst|exact Hbody].
Defined.

(** X7: [X-Cache] tells whether the origin was asked: the response carries
    [miss] exactly when the run made its one fetch, [hit] when it made
    none. *)
Theorem x_cache_miss_iff_fetched `{WireFormat} fs rw req w :
  let r := ServeHTTP fs rw req w in
  exists evs,
    trace (snd r) = trace w ++ evs /\
    ((Header_Get (rw_header (fst (fst r))) "X-Cache" = "miss"%string /\
      count_events is_get evs = 1) \/
     (Header_Get (rw_header (fst (fst r))) "X-Cache" = "hit"%string /\
      count_events is_get evs = 0)).
Proof.
  cbn zeta. unfold ServeHTTP. rewrite tryServeFile_eq. cbn zeta.
  assert (forall rw0 code v,
            Header_Get (rw_header rw0) "X-Cache" = v ->
            Header_Get (rw_header (WriteHeader code rw0)) "X-Cache" = v) as Hwh.
  { intros rw0 code v Hv. unfold WriteHeader. by destruct (rw_status rw0). }
  pose proof (X_Cache_hit rw) as Hhit.
  pose proof (X_Cache_miss (rw_Header_Set "X-Cache" "hit" rw)) as Hmiss.
  destruct (lookup w _) as [e|parsed].
  - destruct e; cbn [os_IsNotExist];
      try (cbn [doError fst snd]; autorewrite with world; rewrite <- ?app_assoc;
           eexists; split; [reflexivity|]; right; split; [by apply Hwh|done]).
    rewrite doCacheFetch_eq. cbn zeta. autorewrite with world.
    assert (forall parsed, Header_Get
              (rw_header (serve parsed (rw_Header_Set "X-Cache" "miss"
                                          (rw_Header_Set "X-Cache" "hit" rw)))) "X-Cache"
              = "miss"%string) as Hserve
      by (intros parsed; by apply serve_keeps_header).
    destruct (origin w _) as [res|];
      [|cbn [doError fst snd]; autorewrite with world; rewrite <- ?app_assoc;
        eexists; split; [reflexivity|]; left; split; [by apply Hwh|done]].
    destruct (cannot_create w _);
      [cbn [doError fst snd]; autorewrite with world; rewrite <- ?app_assoc;
       eexists; split; [reflexivity|]; left; split; [by apply Hwh|done]|].
    unfold body_error. destruct (BodyTruncated res);
      [cbn [doError fst snd]; autorewrite with world; rewrite <- ?app_assoc;
       eexists; split; [reflexivity|]; left; split; [by apply Hwh|done]|].
    rewrite tryServeFile_eq. cbn zeta. unfold body_error.
    destruct (lookup (set_file _ _ _) _) as [e|parsed];
      [|destruct (BodyTruncated parsed)];
      cbn [doError fst snd]; autorewrite with world; rewrite <- ?app_assoc;
      eexists; (split; [reflexivity|]); left; (split; [|done]).
    + by apply Hwh.
    + apply Hwh, Hserve.
    + apply Hserve.
  - assert (Header_Get (rw_header (serve parsed (rw_Header_Set "X-Cache" "hit" rw)))
              "X-Cache" = "hit"%string) as Hserve
      by (by apply serve_keeps_header).
    unfold body_error. destruct (BodyTruncated parsed);
      cbn [os_IsNotExist doError fst snd]; autorewrite with world; rewrite <- ?app_assoc;
      eexists; (split; [reflexivity|]); right; (split; [|done]).
    + by apply Hwh.
    + done.
Qed.

(** ** Headers and cookies through the file server *)

Lemma Header_Values_Add key value h k :
  Header_Values (Header_Add key value h) k =
    Header_Values h k ++ (if decide (key = k) then [value] else []).
Proof.
  unfold Header_Values, Header_Add. destruct (decide (key = k)) as [->|Hne].
  - by rewrite lookup_insert_eq.
  - rewrite lookup_insert_ne by done. by rewrite app_nil_r.
Qed.

Lemma Header_Values_Add_all key vals h k :
  Header_Values (foldl (fun h val => Header_Add key val h) h vals) k =
    Header_Values h k ++ (if decide (key = k) then vals else []).
Proof.
  revert h. induction vals as [|val vals IH]; intros h; cbn [foldl].
  - destruct (decide (key = k)); by rewrite app_nil_r.
  - rewrite IH, Header_Values_Add. destruct (decide (key = k)).
    + by rewrite <- app_assoc.
    + by rewrite !app_nil_r.
Qed.

Lemma Header_Values_copy src dst k :
  Header_Values (copy_headers src dst) k = Header_Values dst k ++ Header_Values src k.
Proof.
  unfold copy_headers.
  apply (map_fold_weak_ind
           (fun h m => Header_Values h k = Header_Values dst k ++ Header_Values m k)).
  - unfold Header_Values at 3. rewrite lookup_empty. by rewrite app_nil_r.
  - intros key vals m h Hnone IH. rewrite Header_Values_Add_all, IH.
    unfold Header_Values at 2 4. destruct (decide (key = k)) as [->|Hne].
    + rewrite Hnone, lookup_insert_eq. cbn [default]. by rewrite app_nil_r.
    + rewrite lookup_insert_ne by done. by rewrite app_nil_r.
Qed.

(** X8: serving a cache file replays every header of the stored response:
    under each key the client gets the values set before the file was
    read, then the stored values in their order; no value is dropped or
    replaced. *)
Theorem cached_headers_are_appended `{WireFormat} fs rw req name w data parsed :
  let n := open_name fs (Clean (String.append "/" name)) in
  cannot_open w n = false -> files w !! n = Some data ->
  ReadResponse data = Some parsed ->
  forall key,
    Header_Values (rw_header (snd (fst (tryServeFile fs rw req name w)))) key =
      Header_Values (rw_header rw) key ++ Header_Values (Header parsed) key.
Proof.
  cbn zeta. intros Hopen Hfile Hparse key.
  rewrite tryServeFile_eq. cbn zeta. unfold lookup. rewrite Hopen, Hfile, Hparse.
  cbn [fst snd]. unfold serve, io_Copy, WriteHeader. cbn [rw_status rw_header snd].
  destruct (rw_status rw); cbn [rw_status rw_header]; apply Header_Values_copy.
Qed.

Lemma cached_headers_are_appended_witness :
  let wire := {| Response_Write := line_Write;
                 ReadResponse := fun _ =>
                   Some (mkResponse 200 {["Cache-Control"%string := ["max-age=60"%string]]}
                           "ok" false) |} in
  let w := set_file "/data/cache/v2/app.js" "200" example_world in
  let rw := rw_Header_Set "Cache-Control" "no-store" fresh_rw in
  Header_Values
    (rw_header (snd (fst (tryServeFile (H := wire)
                            (mkFileServer "/data/cache" (SOURCE example_env))
                            rw (GET "/v2/app.js" ∅ []) "/v2/app.js" w))))
    "Cache-Control" = ["no-store"; "max-age=60"]%string.
Proof.
  cbn zeta.
  pose proof (cached_headers_are_appended
                (H := {| Response_Write := line_Write;
                         ReadResponse := fun _ =>
                           Some (mkResponse 200
                                   {["Cache-Control"%string := ["max-age=60"%string]]}
                                   "ok" false) |})
                (mkFileServer "/data/cache" (SOURCE example_env))
                (rw_Header_Set "Cache-Control" "no-store" fresh_rw)
                (GET "/v2/app.js" ∅ []) "/v2/app.js"
                (set_file "/data/cache/v2/app.js" "200" example_world)
                "200"%string
                (mkResponse 200 {["Cache-Control"%string := ["max-age=60"%string]]}
                   "ok" false)) as Hw.
  cbn zeta in Hw. rewrite Hw; done.
Defined.

Lemma serve_cookies parsed rw : rw_cookies (serve parsed rw) = rw_cookies rw.
Proof.
  unfold serve, io_Copy, WriteHeader. cbn [rw_status rw_cookies snd].
  by destruct (rw_status rw).
Qed.

Lemma WriteHeader_cookies code rw : rw_cookies (WriteHeader code rw) = rw_cookies rw.
Proof. unfold WriteHeader. by destruct (rw_status rw). Qed.

Lemma WriteHeader_header code rw : rw_header (WriteHeader code rw) = rw_header rw.
Proof. unfold WriteHeader. by destruct (rw_status rw). Qed.

Lemma Header_Get_Set_other key value h k :
  key <> k -> Header_Get (Header_Set key value h) k = Header_Get h k.
Proof. intros Hne. unfold Header_Get, Header_Set. by rewrite lookup_insert_ne. Qed.

(** What the handlers before the file server put on the response stays
    there in every outcome: the Set-Cookie lines are untouched, and a
    header other than [X-Cache] keeps its first value. *)
Lemma ServeHTTP_keeps `{WireFormat} fs rw req w k v :
  k <> "X-Cache"%string ->
  Header_Get (rw_header rw) k = v -> v <> EmptyString ->
  rw_cookies (fst (fst (ServeHTTP fs rw req w))) = rw_cookies rw /\
  Header_Get (rw_header (fst (fst (ServeHTTP fs rw req w)))) k = v.
Proof.
  intros Hk Hv Hne.
  assert (Header_Get (rw_header (rw_Header_Set "X-Cache" "hit" rw)) k = v) as Hhit
    by (cbn [rw_header rw_Header_Set]; rewrite Header_Get_Set_other; done).
  assert (Header_Get (rw_header (rw_Header_Set "X-Cache" "miss"
                                   (rw_Header_Set "X-Cache" "hit" rw))) k = v) as Hmiss
    by (cbn [rw_header rw_Header_Set]; rewrite !Header_Get_Set_other; done).
  unfold ServeHTTP. rewrite tryServeFile_eq. cbn zeta.
  destruct (lookup w _) as [e|parsed].
  - destruct e; cbn [os_IsNotExist doError fst snd];
      rewrite ?WriteHeader_cookies, ?WriteHeader_header; try done.
    rewrite doCacheFetch_eq. cbn zeta. autorewrite with world.
    destruct (origin w _) as [res|];
      [|cbn [doError fst snd]; by rewrite WriteHeader_cookies, WriteHeader_header].
    destruct (cannot_create w _);
      [cbn [doError fst snd]; by rewrite WriteHeader_cookies, WriteHeader_header|].
    unfold body_error. destruct (BodyTruncated res);
      [cbn [doError fst snd]; by rewrite WriteHeader_cookies, WriteHeader_header|].
    rewrite tryServeFile_eq. cbn zeta. unfold body_error.
    destruct (lookup (set_file _ _ _) _) as [e|parsed];
      [|destruct (BodyTruncated parsed)];
      cbn [doError fst snd];
      rewrite ?WriteHeader_cookies, ?WriteHeader_header, ?serve_cookies;
      try done; (split; [done|]); by apply serve_keeps_header.
  - unfold body_error. destruct (BodyTruncated parsed);
      cbn [os_IsNotExist doError fst snd];
      rewrite ?WriteHeader_cookies, ?WriteHeader_header, ?serve_cookies;
      (split; [done|]); by apply serve_keeps_header.
Qed.

Lemma sanitizeCookieValue_plain v :
  plain_cookie_value v = true -> sanitizeCookieValue v = v.
Proof.
  unfold plain_cookie_value, sanitizeCookieValue, sanitizeOrWarn. intros Hv.
  assert (forallb validCookieValueByte (list_ascii_of_string v) = true) as ->.
  { apply forallb_forall. intros b Hb.
    apply (proj1 (forallb_forall _ _) Hv) in Hb.
    by apply andb_prop in Hb as [[Hb _]%andb_prop _]. }
  assert (forall c, (c = " " \/ c = ",")%char ->
            existsb (Ascii.eqb c) (list_ascii_of_string v) = false) as Hno.
  { intros c Hc. apply not_true_is_false. intros (b & Hb & Heq)%existsb_exists.
    apply (proj1 (forallb_forall _ _) Hv) in Hb.
    apply andb_prop in Hb as [[_ Hs]%andb_prop Hk]. apply negb_true_iff in Hs, Hk.
    destruct Hc as [->| ->]; congruence. }
  rewrite !Hno by auto. cbn [orb].
  destruct (list_ascii_of_string v) eqn:Hl; rewrite <- Hl; apply string_of_list_ascii_of_string.
Qed.

(** X9: a request with a [version] query value is served that version, and
    whatever the chain of [main] answers (a hit, a miss, or an error for
    a version the origin does not have) carries [Cache-Control:
    no-store] first and one more cookie, handed to [http.SetCookie] as
    [version-override] with the query value, path [/] and an expiry one
    hour ahead.  The value in the Set-Cookie line is what
    [sanitizeCookieValue] makes of the query value: the value itself
    when it has only valid bytes, no space and no comma. *)
Theorem query_version_marks_every_answer `{WireFormat} env rw req w :
  let q := Values_Get (Query (URL req)) "version" in
  let r := main_handler env rw req w in
  q <> EmptyString ->
  served_path r = cache_key q (app_path (Path (URL req))) /\
  rw_cookies (fst (fst r)) =
    rw_cookies rw ++ [mkCookie VERSION_COOKIE_NAME q "/" (Some (now w + time_Hour)%Z) false] /\
  map sent_value (rw_cookies (fst (fst r))) =
    map sent_value (rw_cookies rw) ++ [sanitizeCookieValue q] /\
  (plain_cookie_value q = true ->
   map sent_value (rw_cookies (fst (fst r))) = map sent_value (rw_cookies rw) ++ [q]) /\
  Header_Get (rw_header (fst (fst r))) "Cache-Control" = "no-store"%string.
Proof.
  cbn zeta. intros Hq.
  assert (Values_Get (Query (URL (if String.eqb (Ext (Path (URL req))) EmptyString
                                  then set_Path "/index.html" req else req))) "version"
          = Values_Get (Query (URL req)) "version") as Hq'
    by (by destruct (String.eqb _ _)).
  split.
  { rewrite main_handler_served. by rewrite resolveVersion_query. }
  rewrite main_handler_eq. unfold VersionSwitch.
  set (req' := if String.eqb (Ext (Path (URL req))) EmptyString
               then set_Path "/index.html" req else req) in *.
  rewrite (resolveVersion_query _ rw req' w) by (by rewrite Hq').
  rewrite Hq'.
  match goal with |- context [ServeHTTP ?fs ?rw0 ?req0 ?w0] =>
    destruct (ServeHTTP_keeps fs rw0 req0 w0 "Cache-Control" "no-store")
      as [Hcookies Hheader]; [done|apply Header_Get_Set|done|] end.
  rewrite Hcookies, Hheader. cbn [rw_cookies rw_Header_Set http_SetCookie].
  rewrite map_app. cbn [map sent_value Value].
  split; [done|]. split; [done|]. split; [|done].
  intros Hplain. unfold sent_value at 2. cbn [Value]. by rewrite sanitizeCookieValue_plain.
Qed.

Lemma query_version_marks_every_answer_witness :
  let r := main_handler (H := line_wire) example_env fresh_rw
             (GET "/down.js" {["version"%string := ["v2;x"%string]]} []) example_world in
  served_path r = "/v2%3Bx/down.js"%string /\
  map sent_value (rw_cookies (fst (fst r))) = ["v2x"%string] /\
  Header_Get (rw_header (fst (fst r))) "Cache-Control" = "no-store"%string.
Proof.
  cbn zeta.
  pose proof (query_version_marks_every_answer (H := line_wire) example_env fresh_rw
                (GET "/down.js" {["version"%string := ["v2;x"%string]]} [])
                example_world) as Hw.
  destruct Hw as (Hserved & _ & Hsent & _ & Hheader); [done|].
  split; [exact Hserved|]. split; [exact Hsent|exact Hheader].
Defined.

(** ** More on the version switch *)

Lemma cache_key_degenerate v p :
  ~ plain_name (PathEscape v) -> cache_key v p = Clean (String.append "/" p).
Proof.
  intros Hnp.
  destruct (string_dec (PathEscape v) EmptyString) as [H0|H0].
  { unfold cache_key. rewrite H0. apply (cache_key_empty p). }
  destruct (string_dec (PathEscape v) ".") as [H1|H1].
  { rewrite cache_key_nonempty, H1 by done. apply string_bytes_inj.
    rewrite !Clean_bytes. apply clean_bytes_root_dot. }
  destruct (string_dec (PathEscape v) "..") as [H2|H2].
  { rewrite cache_key_nonempty, H2 by done. apply string_bytes_inj.
    rewrite !Clean_bytes. apply clean_bytes_root_dotdot. }
  by destruct Hnp.
Qed.

(** X10: a version that is empty, [.] or [..] once escaped selects no
    version directory: whatever handler follows gets the request with
    the path [Clean("/" + path)], the tree beside the versions. *)
Theorem dot_versions_select_no_directory dv next rw req w :
  let v := fst (resolveVersion dv rw req w) in
  let rw' := snd (resolveVersion dv rw req w) in
  In (PathEscape v) [EmptyString; "."; ".."]%string ->
  VersionSwitch dv next rw req w =
    next rw' (set_Path (Clean (String.append "/" (Path (URL req)))) req) w.
Proof.
  cbn zeta. intros Hin. unfold VersionSwitch.
  destruct (resolveVersion dv rw req w) as [v rw']. cbn [fst snd] in *.
  fold (cache_key v (Path (URL req))). rewrite cache_key_degenerate; [done|].
  intros (H0 & H1 & H2). destruct Hin as [Heq|[Heq|[Heq|[]]]]; by symmetry in Heq.
Qed.

Lemma dot_versions_select_no_directory_witness :
  served_path
    (VersionSwitch (fun _ => "v1"%string)
       (ServeHTTP (H := line_wire) (mkFileServer "/data/cache" (SOURCE example_env)))
       fresh_rw (GET "/secret/app.js" {["version"%string := [".."%string]]} [])
       example_world) = "/secret/app.js"%string.
Proof.
  pose proof (dot_versions_select_no_directory (fun _ => "v1"%string)
                (ServeHTTP (H := line_wire) (mkFileServer "/data/cache" (SOURCE example_env)))
                fresh_rw (GET "/secret/app.js" {["version"%string := [".."%string]]} [])
                example_world) as Hw.
  cbn zeta in Hw. rewrite Hw.
  - unfold served_path. by rewrite ServeHTTP_req.
  - right. right. by left.
Defined.

(** *** [PathEscape] can be read back *)

Lemma unhex_upperhex n : n < 16 -> unhex (upperhex n) = n.
Proof.
  intros Hn. do 16 (destruct n as [|n]; [reflexivity|]). lia.
Qed.

Lemma escape_byte_cases c :
  (shouldEscape c = true /\
   escape_byte c = ["%"%char; upperhex (nat_of_ascii c / 16);
                    upperhex (nat_of_ascii c mod 16)]) \/
  (shouldEscape c = false /\ escape_byte c = [c] /\ c <> "%"%char).
Proof.
  unfold escape_byte. destruct (shouldEscape c) eqn:Hc; [by left|right].
  repeat split. by intros ->.
Qed.

Lemma nat_of_ascii_hex c d :
  upperhex (nat_of_ascii c / 16) = upperhex (nat_of_ascii d / 16) ->
  upperhex (nat_of_ascii c mod 16) = upperhex (nat_of_ascii d mod 16) ->
  c = d.
Proof.
  intros Hhi Hlo.
  pose proof (nat_ascii_bounded c) as Hc. pose proof (nat_ascii_bounded d) as Hd.
  apply (f_equal unhex) in Hhi, Hlo.
  rewrite !unhex_upperhex in Hhi, Hlo
    by (try apply Nat.mod_upper_bound; try apply Nat.Div0.div_lt_upper_bound; lia).
  rewrite <- (ascii_nat_embedding c), <- (ascii_nat_embedding d). f_equal.
  rewrite (Nat.div_mod_eq (nat_of_ascii c) 16), (Nat.div_mod_eq (nat_of_ascii d) 16). lia.
Qed.

Lemma escape_bytes_inj l1 l2 :
  flat_map escape_byte l1 = flat_map escape_byte l2 -> l1 = l2.
Proof.
  revert l2. induction l1 as [|c l1 IH]; intros [|d l2]; cbn [flat_map].
  - done.
  - destruct (escape_byte_cases d) as [[_ ->]|(_ & -> & _)]; done.
  - destruct (escape_byte_cases c) as [[_ ->]|(_ & -> & _)]; done.
  - destruct (escape_byte_cases c) as [[_ ->]|(_ & -> & Hc)],
             (escape_byte_cases d) as [[_ ->]|(_ & -> & Hd)]; cbn [app].
    + intros [= Hhi Hlo Hrest]. f_equal; [by apply nat_of_ascii_hex|by apply IH].
    + intros [= <- _]. done.
    + intros [= -> _]. done.
    + intros [= -> Hrest]. f_equal. by apply IH.
Qed.

Lemma PathEscape_inj v1 v2 : PathEscape v1 = PathEscape v2 -> v1 = v2.
Proof.
  unfold PathEscape. intros Heq. apply (f_equal list_ascii_of_string) in Heq.
  rewrite !list_ascii_of_string_of_list_ascii in Heq.
  apply string_bytes_inj. by apply escape_bytes_inj.
Qed.

Lemma string_append_inj_r s t1 t2 : String.append t1 s = String.append t2 s -> t1 = t2.
Proof.
  intros Heq. apply string_bytes_inj. apply (f_equal list_ascii_of_string) in Heq.
  rewrite !list_ascii_of_string_app in Heq. by apply app_inv_tail in Heq.
Qed.

(** X11: two versions never share a cache key: for a clean rooted path and
    versions that escape to plain names, different versions give
    different keys, also when one version looks like the escaped form of
    the other. *)
Theorem versions_do_not_share_keys v1 v2 p :
  plain_name (PathEscape v1) -> plain_name (PathEscape v2) ->
  (exists t, p = String.append "/" t /\ t <> EmptyString) -> Clean p = p ->
  v1 <> v2 -> cache_key v1 p <> cache_key v2 p.
Proof.
  intros H1 H2 Hp Hclean Hne. rewrite !cache_key_plain by done.
  intros [= Heq]. apply Hne, PathEscape_inj. by apply string_append_inj_r in Heq.
Qed.

Lemma versions_do_not_share_keys_witness :
  cache_key "v 1" "/app.js" <> cache_key "v%201" "/app.js".
Proof.
  apply (versions_do_not_share_keys "v 1" "v%201" "/app.js").
  - done.
  - done.
  - by exists "app.js"%string.
  - done.
  - done.
Defined.

(** X12: the layout of the cache: for a clean root directory, a version that
    escapes to a plain name and a clean rooted path, every file the
    chain below [VersionSwitch] opens, creates or writes is
    [root/escaped-version/path]. *)
Theorem cache_layout_is_root_version_path `{WireFormat} dv fs rw req w :
  let ev := PathEscape (fst (resolveVersion dv rw req w)) in
  let p := Path (URL req) in
  let n := String.append (root fs) (String.append "/" (String.append ev p)) in
  Clean (root fs) = root fs ->
  (exists r, root fs = String.append "/" r /\ r <> EmptyString) ->
  plain_name ev ->
  (exists t, p = String.append "/" t /\ t <> EmptyString) -> Clean p = p ->
  exists evs,
    trace (snd (VersionSwitch dv (ServeHTTP fs) rw req w)) = trace w ++ evs /\
    Forall (on_file n) evs.
Proof.
  cbn zeta. intros Hclean Hroot Hplain Hp Hpclean. unfold VersionSwitch.
  destruct (resolveVersion dv rw req w) as [v rw']. cbn [fst] in *.
  fold (cache_key v (Path (URL req))).
  destruct (cache_key_fixed v (Path (URL req))) as [Hk1 Hk2].
  destruct (ServeHTTP_events fs rw' (set_Path (cache_key v (Path (URL req))) req) w
              (cache_key v (Path (URL req))) Hk1 Hk2) as (evs & Htr & Hevs).
  exists evs. split; [done|].
  destruct (names_under_root fs (cache_key v (Path (URL req))) Hclean Hroot)
    as [Hopen Hstore]; [by eexists|].
  assert (under_root (root fs) (cache_key v (Path (URL req))) =
          String.append (root fs)
            (String.append "/" (String.append (PathEscape v) (Path (URL req))))) as Hn.
  { unfold under_root. rewrite cache_key_plain by done.
    destruct Hplain as (Hne & _). destruct (PathEscape v); done. }
  eapply Forall_impl; [exact Hevs|]. intros e. unfold uses_key, on_file.
  rewrite Hopen, Hstore, Hn. by destruct e.
Qed.

Lemma cache_layout_is_root_version_path_witness :
  let r := VersionSwitch (fun _ => "v1"%string)
             (ServeHTTP (H := line_wire) (mkFileServer "/data/cache" (SOURCE example_env)))
             fresh_rw (GET "/static/app.js" ∅ []) example_world in
  exists evs, trace (snd r) = evs /\ Forall (on_file "/data/cache/v1/static/app.js") evs.
Proof.
  cbn zeta.
  pose proof (cache_layout_is_root_version_path (H := line_wire) (fun _ => "v1"%string)
                (mkFileServer "/data/cache" (SOURCE example_env))
                fresh_rw (GET "/static/app.js" ∅ []) example_world) as Hw.
  destruct Hw as (evs & Htr & Hevs);
    [done|by exists "data/cache"%string|done|by exists "static/app.js"%string|done|].
  exists evs. split; [exact Htr|exact Hevs].
Defined.

(** ** No cache directory *)

Lemma clean_bytes_dot_key ek :
  ek <> [] -> Forall (fun e => normal_elem e = true) ek ->
  clean_bytes (dot :: slash :: slash :: join_slash ek) = join_slash ek.
Proof.
  intros Hne Hek. rewrite clean_bytes_fwd. cbn [clean_state].
  replace (is_slash dot) with false by done.
  assert (arun false (split_slash (dot :: slash :: slash :: join_slash ek)) (0, [])
          = (0, rev ek)) as ->.
  { cbn [split_slash]. replace (is_slash dot) with false by done.
    rewrite is_slash_slash. rewrite split_join_slash by auto using normal_slash_free.
    rewrite !arun_cons. cbn [astep is_dot_elem]. replace (is_dot dot) with true by done.
    change (astep false [] (0, [])) with (0, @nil bytes).
    rewrite arun_normal by done. by rewrite app_nil_r. }
  unfold fwd, elems_of. cbn [fst snd repeat app]. rewrite rev_involutive.
  destruct ek as [|e ek']; [done|].
  destruct (join_slash_head (e :: ek')) as (c & q & Hq & _);
    [done|by apply stack_ok_seg with (a := (0, e :: ek'))|].
  by rewrite Hq.
Qed.

Lemma names_off_root fs key :
  root fs = EmptyString ->
  (exists x, key = Clean (String slash x)) -> key <> "/"%string ->
  String.append "/" (open_name fs key) = key /\ store_name fs key = key.
Proof.
  intros Hroot (x & ->) Hne. unfold open_name, store_name, filepath_Join. rewrite Hroot.
  cbn [String.eqb]. split.
  - assert (exists ek, ek <> [] /\ Forall (fun e => normal_elem e = true) ek /\
                       list_ascii_of_string (Clean (String slash x)) = slash :: join_slash ek)
      as (ek & Hek0 & Hek & Hkb).
    { rewrite Clean_bytes. cbn [list_ascii_of_string]. rewrite clean_bytes_fwd.
      cbn [clean_state]. rewrite is_slash_slash, dot_if_empty_fwd_true.
      set (a := arun true _ _).
      assert (stack_ok a) as Hok
        by (apply arun_stack_ok; [apply split_slash_free|constructor]).
      assert (list_ascii_of_string (Clean (String slash x)) = fwd true a) as Hfwd.
      { rewrite Clean_bytes, clean_bytes_fwd. cbn [list_ascii_of_string clean_state].
        by rewrite is_slash_slash, dot_if_empty_fwd_true. }
      exists (rev (snd a)). split; [|split; [by apply stack_ok_rev|done]].
      intros Hnil. apply Hne. apply string_bytes_inj. rewrite Hfwd.
      unfold fwd, elems_of. cbn [app]. by rewrite Hnil. }
    rewrite Join_pair_nonempty by done.
    apply string_bytes_inj. rewrite list_ascii_of_string_app, Clean_bytes.
    rewrite list_ascii_of_string_app. cbn [list_ascii_of_string app].
    by rewrite Hkb, clean_bytes_dot_key.
  - rewrite Join_pair_empty.
    destruct (String.eqb_spec (Clean (String slash x)) EmptyString) as [Heq|_].
    + apply (f_equal list_ascii_of_string) in Heq. rewrite Clean_bytes in Heq.
      cbn [list_ascii_of_string] in Heq. rewrite clean_bytes_fwd in Heq.
      cbn [clean_state] in Heq. rewrite is_slash_slash, dot_if_empty_fwd_true in Heq.
      done.
    + apply Clean_idem.
Qed.

(** X13: with no cache directory configured, the file server looks a key up
    under a relative name, the key without its leading slash, and stores
    it under the key itself, an absolute name: what it stores is not
    where it looks. *)
Theorem no_cache_dir_stores_where_it_does_not_look `{WireFormat} fs rw req w :
  let key := Clean (String.append "/" (Clean (Path (URL req)))) in
  root fs = EmptyString -> key <> "/"%string ->
  exists evs, trace (snd (ServeHTTP fs rw req w)) = trace w ++ evs /\
              Forall (off_root key) evs.
Proof.
  cbn zeta. intros Hroot Hne.
  destruct (ServeHTTP_touches fs rw req w) as (evs & Htr & Hevs).
  exists evs. split; [done|].
  destruct (names_off_root fs _ Hroot (ex_intro _ _ eq_refl) Hne) as [Hopen Hstore].
  eapply Forall_impl; [exact Hevs|]. intros e. unfold touches, off_root. cbn zeta.
  destruct e; try done; by intros ->.
Qed.

Lemma no_cache_dir_stores_where_it_does_not_look_witness :
  let r := ServeHTTP (H := line_wire) (mkFileServer EmptyString (SOURCE example_env))
             fresh_rw (GET "/v1/index.html" ∅ []) example_world in
  exists evs, trace (snd r) = evs /\ Forall (off_root "/v1/index.html") evs /\
              In (EvOpen "v1/index.html") evs /\
              In (EvCreate "/v1/index.html") evs.
Proof.
  cbn zeta.
  pose proof (no_cache_dir_stores_where_it_does_not_look (H := line_wire)
                (mkFileServer EmptyString (SOURCE example_env))
                fresh_rw (GET "/v1/index.html" ∅ []) example_world) as Hw.
  destruct Hw as (evs & Htr & Hevs); [done|done|].
  exists evs. split; [exact Htr|]. split; [exact Hevs|].
  cbn [trace example_world app] in Htr. rewrite <- Htr.
  split; vm_compute; tauto.
Defined.

(** ** The extension test *)

Lemma ext_scan_after_slash l r acc :
  slash_free l = true -> ext_scan (l ++ slash :: r) acc = ext_scan l acc.
Proof.
  revert acc. induction l as [|c l IH]; intros acc; [done|].
  cbn [slash_free forallb app ext_scan]. intros [Hc Hl]%andb_prop.
  apply negb_true_iff in Hc. rewrite Hc. destruct (is_dot c); [done|]. by apply IH.
Qed.

Lemma ext_scan_nil l acc :
  slash_free l = true -> ext_scan l acc = [] <-> existsb is_dot l = false.
Proof.
  revert acc. induction l as [|c l IH]; intros acc; [done|].
  cbn [slash_free forallb ext_scan existsb]. intros [Hc Hl]%andb_prop.
  apply negb_true_iff in Hc. rewrite Hc. destruct (is_dot c); [done|]. by apply IH.
Qed.

Lemma existsb_is_dot_rev l : existsb is_dot (rev l) = existsb is_dot l.
Proof.
  induction l as [|c l IH]; [done|]. cbn [rev existsb].
  rewrite existsb_app, IH. cbn [existsb]. by rewrite orb_false_r, orb_comm.
Qed.

Lemma Ext_last_element d f :
  slash_free (list_ascii_of_string f) = true ->
  String.eqb (Ext (String.append d (String slash f))) EmptyString = negb (has_dot f).
Proof.
  intros Hf. unfold Ext, has_dot.
  rewrite list_ascii_of_string_app. cbn [list_ascii_of_string].
  rewrite rev_app_distr. cbn [rev]. rewrite <- app_assoc. cbn [app].
  rewrite ext_scan_after_slash by (by rewrite slash_free_rev).
  rewrite <- (existsb_is_dot_rev (list_ascii_of_string f)).
  pose proof (ext_scan_nil (rev (list_ascii_of_string f)) []) as Hnil.
  rewrite slash_free_rev in Hnil. specialize (Hnil Hf).
  destruct (ext_scan _ _) as [|c l].
  - by rewrite (proj1 Hnil).
  - destruct (existsb is_dot _); [done|]. by pose proof (proj2 Hnil eq_refl).
Qed.

(** X14: only the last element of the path decides the route: a request is
    answered with the application shell of its version exactly when
    there is no dot after the last slash, whatever dots the directories
    before it have; with a dot there, it keeps its path. *)
Theorem route_is_decided_by_last_element `{WireFormat} env rw req w d f :
  Path (URL req) = String.append d (String.append "/" f) ->
  slash_free (list_ascii_of_string f) = true ->
  served_path (main_handler env rw req w) =
    cache_key (fst (resolveVersion (defaultVersionFunc env) rw req w))
              (if has_dot f then Path (URL req) else "/index.html"%string).
Proof.
  intros Hp Hf. rewrite main_handler_served. unfold app_path.
  replace (Ext (Path (URL req))) with (Ext (String.append d (String slash f)))
    by (by rewrite Hp).
  rewrite Ext_last_element by done.
  by destruct (has_dot f).
Qed.

Lemma route_is_decided_by_last_element_witness :
  served_path (main_handler (H := line_wire) example_env fresh_rw
                 (GET "/releases/v1.2/about" ∅ []) example_world)
    = "/v1/index.html"%string /\
  served_path (main_handler (H := line_wire) example_env fresh_rw
                 (GET "/releases/v1.2/about.txt" ∅ []) example_world)
    = "/v1/releases/v1.2/about.txt"%string.
Proof.
  split.
  - rewrite (route_is_decided_by_last_element (H := line_wire) example_env fresh_rw
               (GET "/releases/v1.2/about" ∅ []) example_world "/releases/v1.2" "about");
      done.
  - rewrite (route_is_decided_by_last_element (H := line_wire) example_env fresh_rw
               (GET "/releases/v1.2/about.txt" ∅ []) example_world
               "/releases/v1.2" "about.txt");
      done.
Defined.

(** ** The default-version poller *)

(** Nothing the chain answers depends on the trace. *)
Lemma tryServeFile_retrace `{WireFormat} fs rw req name t w :
  exists t', tryServeFile fs rw req name (retrace t w) =
             (fst (tryServeFile fs rw req name w),
              retrace t' (snd (tryServeFile fs rw req name w))).
Proof.
  rewrite !tryServeFile_eq. cbn zeta.
  change (lookup (retrace t w)) with (lookup w).
  destruct (lookup w _); eexists; reflexivity.
Qed.

Lemma doCacheFetch_retrace `{WireFormat} fs rw req name t w :
  exists t', doCacheFetch fs rw req name (retrace t w) =
             (fst (doCacheFetch fs rw req name w),
              retrace t' (snd (doCacheFetch fs rw req name w))).
Proof.
  rewrite !doCacheFetch_eq. cbn zeta.
  change (origin (retrace t w)) with (origin w).
  change (cannot_create (retrace t w)) with (cannot_create w).
  destruct (origin w _); [|eexists; reflexivity].
  destruct (cannot_create w _); eexists; reflexivity.
Qed.

Lemma ServeHTTP_retrace `{WireFormat} fs rw req t w :
  exists t', ServeHTTP fs rw req (retrace t w) =
             (fst (ServeHTTP fs rw req w), retrace t' (snd (ServeHTTP fs rw req w))).
Proof.
  unfold ServeHTTP.
  destruct (tryServeFile_retrace fs (rw_Header_Set "X-Cache" "hit" rw) req
              (Clean (Path (URL req))) t w) as [t1 ->].
  destruct (tryServeFile fs _ req _ w) as [[err rw1] w1]. cbn [fst snd].
  destruct (os_IsNotExist err).
  - destruct (doCacheFetch_retrace fs (rw_Header_Set "X-Cache" "miss" rw1) req
                (Clean (Path (URL req))) t1 w1) as [t2 ->].
    destruct (doCacheFetch fs _ req _ w1) as [[e|] w2]; cbn [fst snd].
    + eexists; reflexivity.
    + destruct (tryServeFile_retrace fs (rw_Header_Set "X-Cache" "miss" rw1) req
                  (Clean (Path (URL req))) t2 w2) as [t3 ->].
      destruct (tryServeFile fs _ req _ w2) as [[[e|] rw3] w3]; eexists; reflexivity.
  - destruct err; eexists; reflexivity.
Qed.

Lemma main_handler_retrace `{WireFormat} env rw req t w :
  exists t', main_handler env rw req (retrace t w) =
             (fst (main_handler env rw req w), retrace t' (snd (main_handler env rw req w))).
Proof.
  rewrite !main_handler_eq. unfold VersionSwitch.
  set (req1 := if String.eqb _ _ then _ else _).
  assert (resolveVersion (defaultVersionFunc env) rw req1 (retrace t w) =
          resolveVersion (defaultVersionFunc env) rw req1 w) as ->.
  { unfold resolveVersion, defaultVersionFunc.
    by destruct (negb (String.eqb (DEFAULT_VERSION env) EmptyString)). }
  destruct (resolveVersion _ rw req1 w) as [v rw1]. apply ServeHTTP_retrace.
Qed.

(** X15: a fetch of the default version that fails (the origin cannot be
    reached, it answers with a status other than 200, or the body breaks
    off) makes the poller fail when it is its first, so that [main]
    stops; as a later turn it changes nothing for the requests that
    follow: the same response and the same files as without that turn. *)
Theorem failed_poll_changes_no_answer `{WireFormat} {G : GoStrings} env url rw req w :
  fst (fetchVersion url w) = None ->
  defaultVersionPoller url w = None /\
  fst (main_handler env rw req (poll url w)) = fst (main_handler env rw req w) /\
  files (snd (main_handler env rw req (poll url w))) =
    files (snd (main_handler env rw req w)).
Proof.
  intros Hfail. split.
  { unfold defaultVersionPoller. by destruct (fetchVersion url w) as [[v|] w']. }
  assert (poll url w = retrace (trace w ++ [EvGet url]) w) as ->.
  { unfold poll. revert Hfail. unfold fetchVersion. cbn zeta.
    rewrite origin_emit. destruct (origin w url) as [res|]; [|done].
    destruct (negb _); [done|]. by destruct (body_error res). }
  destruct (main_handler_retrace env rw req (trace w ++ [EvGet url]) w) as [t' ->].
  done.
Qed.

Lemma failed_poll_changes_no_answer_witness :
  let url := mkURL "http" "origin.example" "/bucket/default-version.txt" ∅ in
  let w' := poll (H := ascii_strings) url example_world in
  defaultVersionCell w' = "v9"%string /\
  fst (main_handler (H := line_wire) example_env fresh_rw (GET "/" ∅ []) w') =
  fst (main_handler (H := line_wire) example_env fresh_rw (GET "/" ∅ []) example_world).
Proof.
  cbn zeta. split; [done|].
  apply (failed_poll_changes_no_answer (H := line_wire) (G := ascii_strings)). done.
Defined.

(** X16: with no default version configured, a request that names no version
    gets the one the poller fetched last, at its start or in a later
    turn: the body of the origin's answer with the white space around it
    trimmed off. *)
Theorem polled_version_is_served `{WireFormat} {G : GoStrings} env url res rw req w :
  DEFAULT_VERSION env = EmptyString ->
  origin w url = Some res -> StatusCode res = 200 -> BodyTruncated res = false ->
  Values_Get (Query (URL req)) "version" = EmptyString ->
  (forall c, In c (Cookies req) -> fst c <> VERSION_COOKIE_NAME) ->
  defaultVersionPoller url w = Some (poll url w) /\
  served_path (main_handler env rw req (poll url w)) =
    cache_key (TrimSpace (Body res)) (app_path (Path (URL req))).
Proof.
  intros Hdv Hres Hst Hbody Hq Hcs. split.
  { unfold defaultVersionPoller, poll, fetchVersion. cbn zeta.
    rewrite origin_emit, Hres, Hst. unfold body_error. by rewrite Hbody. }
  rewrite main_handler_served.
  rewrite resolveVersion_default.
  - cbn [fst]. unfold defaultVersionFunc. rewrite Hdv. cbn [String.eqb negb].
    unfold poll, fetchVersion. cbn zeta. rewrite origin_emit, Hres, Hst.
    unfold body_error. by rewrite Hbody.
  - done.
  - done.
Qed.

Lemma polled_version_is_served_witness :
  let env := mkEnv (SOURCE example_env) "/data/cache" EmptyString in
  let url := mkURL "http" "origin.example" "/bucket/default-version.txt" ∅ in
  let w := mkWorld ∅ (fun _ => false) (fun _ => false)
             (fun u => if String.eqb (Path u) "/bucket/default-version.txt"
                       then Some (mkResponse 200 ∅ "  v7 " false)
                       else None)
             1000 "v1" [] in
  served_path (main_handler (H := line_wire) env fresh_rw (GET "/static/app.js" ∅ [])
                 (poll (H := ascii_strings) url w)) = "/v7/static/app.js"%string.
Proof.
  cbn zeta.
  pose proof (polled_version_is_served (H := line_wire) (G := ascii_strings)
                (mkEnv (SOURCE example_env) "/data/cache" EmptyString)
                (mkURL "http" "origin.example" "/bucket/default-version.txt" ∅)
                (mkResponse 200 ∅ "  v7 " false) fresh_rw
                (GET "/static/app.js" ∅ [])
                (mkWorld ∅ (fun _ => false) (fun _ => false)
                   (fun u => if String.eqb (Path u) "/bucket/default-version.txt"
                             then Some (mkResponse 200 ∅ "  v7 " false)
                             else None)
                   1000 "v1" [])) as Hw.
  destruct Hw as [_ Hserved]; [done..|]. rewrite Hserved. done.
Defined.
